(** * Contribution ledger and moderation pipeline

    A shallow embedding of the two React components of the repository:

    - [PresaleScreen] (identity verification, cap resolution, countdown,
      submission ledger kept in component state and in [localStorage]);
    - [AdminScreen] (access gate and live moderation queue).

    Component state becomes a record, every handler a function from state
    to state, the effects of a component are run by the step relation after
    the handler that changed their dependencies.

    Modelling conventions.
    - JavaScript strings are [string]s of code units below 256, that is,
      texts over the characters U+0000 to U+00FF.  On these the string
      operations below are their ECMAScript counterparts: the letters with
      a lowercase form there are A-Z and U+00C0 to U+00DE (but U+00D7), each
      with its lowercase 32 places on, and the white space there is
      U+0009 to U+000D, U+0020 and U+00A0.
    - JavaScript numbers are [number]: [NaN] or an exact rational.  The
      handlers only compare numbers (and round once, in [toFixed3]), so the
      rational value of a double is all that is observed.
    - Instants ([Date.now ()], [PRESALE_END_TIME]) are integers, in
      milliseconds. *)

From Stdlib Require Import ZArith QArith Qround Lia Bool List Ascii String DecimalString.
From Stdlib Require Import Lqa.
From stdpp Require Import gmap strings list fin_maps.
Import ListNotations.

Open Scope string_scope.

(* ===================================================================== *)
(** ** The JavaScript fragment used by the components *)
(* ===================================================================== *)

Module JS.

(** *** Numbers *)

Inductive number : Type :=
| NaN : number
| Num : Q -> number.

(** [!!n] for a number: [0] and [NaN] are falsy. *)
Definition truthy_number (n : number) : bool :=
  match n with
  | NaN => false
  | Num q => negb (Qeq_bool q 0)
  end.

(** [a > b] and [a < b]; any comparison with [NaN] is [false]. *)
Definition gt (a b : number) : bool :=
  match a, b with
  | Num x, Num y => negb (Qle_bool x y)
  | _, _ => false
  end.

Definition lt (a b : number) : bool := gt b a.

(** [isNaN n]. *)
Definition isNaN (n : number) : bool :=
  match n with NaN => true | Num _ => false end.

(** [parseFloat (n.toFixed (3))]: the nearest multiple of [1/1000], a tie
    going away from zero. *)
Definition toFixed3 (n : number) : number :=
  match n with
  | NaN => NaN
  | Num q =>
      if Qle_bool 0 q then Num (Qfloor (q * 1000 + (1 # 2)) # 1000)
      else Num (- Qfloor (- q * 1000 + (1 # 2)) # 1000)
  end.

(** [x || d] for an optional number [x]. *)
Definition number_or (x : option number) (d : number) : number :=
  match x with
  | Some n => if truthy_number n then n else d
  | None => d
  end.

(** *** Strings *)

(** [!!s] for a string: only the empty string is falsy. *)
Definition truthy_string (s : string) : bool :=
  match s with EmptyString => false | String _ _ => true end.

(** [x || d] for strings. *)
Definition string_or (x d : string) : string :=
  if truthy_string x then x else d.

Definition at_sign : ascii := "@"%char.

(** [s.replace ('@', '')]: a string pattern replaces its first occurrence
    only. *)
Fixpoint replace_at (s : string) : string :=
  match s with
  | EmptyString => EmptyString
  | String c r => if Ascii.eqb c at_sign then r else String c (replace_at r)
  end.

(** [s.startsWith ('@')]. *)
Definition startsWith_at (s : string) : bool :=
  match s with
  | EmptyString => false
  | String c _ => Ascii.eqb c at_sign
  end.

Definition to_lower_char (c : ascii) : ascii :=
  let n := nat_of_ascii c in
  if ((65 <=? n) && (n <=? 90)
      || (192 <=? n) && (n <=? 222) && negb (n =? 215))%nat
  then ascii_of_nat (n + 32)
  else c.

(** [s.toLowerCase ()]. *)
Fixpoint toLowerCase (s : string) : string :=
  match s with
  | EmptyString => EmptyString
  | String c r => String (to_lower_char c) (toLowerCase r)
  end.

(** White space and line terminators: TAB, LF, VT, FF, CR, SPACE and the
    no-break space. *)
Definition is_space (c : ascii) : bool :=
  let n := nat_of_ascii c in
  ((9 <=? n)%nat && (n <=? 13)%nat) || (n =? 32)%nat || (n =? 160)%nat.

Fixpoint trimStart (s : string) : string :=
  match s with
  | EmptyString => EmptyString
  | String c r => if is_space c then trimStart r else s
  end.

Fixpoint trimEnd (s : string) : string :=
  match s with
  | EmptyString => EmptyString
  | String c r =>
      match trimEnd r with
      | EmptyString => if is_space c then EmptyString else String c EmptyString
      | t => String c t
      end
  end.

(** [s.trim ()]. *)
Definition trim (s : string) : string := trimEnd (trimStart s).

(** The last code unit of a string, if any. *)
Fixpoint last_char (s : string) : option ascii :=
  match s with
  | EmptyString => None
  | String c EmptyString => Some c
  | String _ r => last_char r
  end.

Definition first_char (s : string) : option ascii :=
  match s with
  | EmptyString => None
  | String c _ => Some c
  end.

Fixpoint forallb_string (p : ascii -> bool) (s : string) : bool :=
  match s with
  | EmptyString => true
  | String c r => p c && forallb_string p r
  end.

(** *** Decimal rendering of small integers *)

(** [n.toString ()] for an integer [n]. *)
Definition toString (n : Z) : string := NilZero.string_of_int (Z.to_int n).

(** [s.padStart (2, '0')]. *)
Definition padStart2 (s : string) : string :=
  match String.length s with
  | 0%nat => "00"
  | 1%nat => String "0"%char s
  | _ => s
  end.

(** [a % b]: the remainder has the sign of the dividend. *)
Definition rem (a b : Z) : Z := Z.rem a b.

(** [Math.floor (a / b)] for integers [a] and [b > 0]. *)
Definition floor_div (a b : Z) : Z := Z.div a b.

End JS.

(* ===================================================================== *)
(** ** PresaleScreen: verification, countdown and submission ledger *)
(* ===================================================================== *)

Module PresaleScreen.
Import JS.

Inductive PresaleView : Type := VERIFY | CONTRIBUTE.

(** The fields of [UserData] this component reads and writes. *)
Record UserData : Type := {
  handle : string;
  wallet : string;
  actualCommit : option number
}.

Record Submission : Type := {
  sub_id : string;
  sub_missionId : string;
  sub_proofUrl : string;
  sub_amount : number;
  sub_status : string;
  sub_timestamp : Z
}.

Inductive NotificationType : Type := ERROR | SUCCESS.

(** The notification texts, one constructor per message template. *)
Inductive Message : Type :=
| CREDENTIALS_MISSING
| FORMAT_ERROR
| SECURITY_WARNING
| UPLINK_STABLE (h : string) (cap : number)
| PHASE_END
| HASH_INVALID
| TRANSMISSION_COMPLETE
| ADDRESS_COPIED.

Record Notification : Type := {
  message : Message;
  type : NotificationType
}.

(** What the [history] state holds.  It is an array of submissions, except
    when the ledger object answered the read of the key [__proto__] with
    its prototype, the object [Object.prototype] ([Builtin]): that value
    is truthy, so [|| []] keeps it, and it is not an array. *)
Inductive Ledger : Type :=
| Entries (l : list Submission)
| Builtin.

(** The parsed content of [localStorage[STORAGE_KEY]]: the own properties
    of the object, handle key to ledger slice. *)
Abbreviation LedgerData := (gmap string (list Submission)).

(** Component state, the [userData] prop it updates through [setUserData],
    the interval timer and the stored ledger ([None]: no item stored). *)
Record State : Type := {
  view : PresaleView;
  loginHandle : string;
  loginWallet : string;
  amount : number;
  txHash : string;
  history : Ledger;
  notification : option Notification;
  detectedCap : number;
  timeLeft : string;
  timerActive : bool;
  userData : UserData;
  storage : option LedgerData
}.

(** *** Constants *)

Definition MINIMUM_CONTRIBUTION : number := Num (1 # 100).
Definition DEFAULT_CAP : number := Num (15 # 100).
Definition INITIAL_AMOUNT : number := Num (1 # 10).

(** [/^[1-9A-HJ-NP-Za-km-z]{32,44}$/] *)
Definition base58_char (c : ascii) : bool :=
  let n := nat_of_ascii c in
  ((49 <=? n) && (n <=? 57)       (* 1-9 *)
   || (65 <=? n) && (n <=? 72)    (* A-H *)
   || (74 <=? n) && (n <=? 78)    (* J-N *)
   || (80 <=? n) && (n <=? 90)    (* P-Z *)
   || (97 <=? n) && (n <=? 107)   (* a-k *)
   || (109 <=? n) && (n <=? 122)  (* m-z *))%nat.

Definition SOLANA_ADDRESS_REGEX_test (s : string) : bool :=
  ((32 <=? String.length s) && (String.length s <=? 44))%nat
  && forallb_string base58_char s.

(** The own properties of [MOCK_JUNGLE_DB]: handle to (wallet, commit). *)
Definition MOCK_JUNGLE_DB : gmap string (string * number) :=
  list_to_map
    [ ("monky_king", ("7xKX99kR7xKX99kR7xKX99kR7xKX99kR7xKX99kR", Num (10 # 1)));
      ("degen_ape", ("Ape1111111111111111111111111111111111111", Num (5 # 1)));
      ("sol_surfer", ("Surf222222222222222222222222222222222222", Num (25 # 10)));
      ("banana_farmer", ("Farm333333333333333333333333333333333333", Num (8 # 10))) ].

(** The property names every object literal inherits from
    [Object.prototype]. *)
Definition Object_prototype_names : list string :=
  [ "constructor"; "__proto__"; "hasOwnProperty"; "isPrototypeOf";
    "propertyIsEnumerable"; "toLocaleString"; "toString"; "valueOf";
    "__defineGetter__"; "__defineSetter__"; "__lookupGetter__";
    "__lookupSetter__" ].

Definition inherited_name (k : string) : bool :=
  existsb (String.eqb k) Object_prototype_names.

(** [MOCK_JUNGLE_DB[handle]].  An own entry has a wallet and a commit.  A
    name inherited from [Object.prototype] answers with a built-in, which is
    truthy and has neither a [wallet] nor a [commit] property. *)
Inductive Lookup : Type :=
| Own (w : string) (commit : number)
| Inherited
| Absent.

Definition MOCK_JUNGLE_DB_get (h : string) : Lookup :=
  match MOCK_JUNGLE_DB !! h with
  | Some (w, c) => Own w c
  | None => if inherited_name h then Inherited else Absent
  end.

(** What the read [allData[handleKey]] answers on the parsed ledger
    object: an own slice, or, without an own property of that name, the
    prototype of the object for [__proto__], the function [Object] for
    [constructor], and [undefined] otherwise. *)
Inductive Read : Type :=
| Slice (l : list Submission)
| ObjectPrototype
| ObjectConstructor
| Missing.

(** [allData[handleKey]] at a grouping key.  A grouping key is in lower
    case and the other names an object inherits all have a capital letter,
    so a grouping key is none of them. *)
Definition ledger_get (allData : LedgerData) (k : string) : Read :=
  match allData !! k with
  | Some l => Slice l
  | None =>
      if String.eqb k "__proto__" then ObjectPrototype
      else if String.eqb k "constructor" then ObjectConstructor
      else Missing
  end.

(** [allData[handleKey] = v].  Assigning to ["__proto__"] on an object
    without such an own property runs the inherited setter: the prototype
    of [allData] changes, no own property is created, and
    [JSON.stringify] does not see [v]. *)
Definition ledger_set (k : string) (v : list Submission) (allData : LedgerData)
  : LedgerData :=
  if String.eqb k "__proto__" then
    match allData !! k with
    | Some _ => <[k := v]> allData
    | None => allData
    end
  else <[k := v]> allData.

(** [userData.handle.toLowerCase().replace('@', '')], the grouping key of
    both the ledger read and the ledger write. *)
Definition handleKey (ud : UserData) : string :=
  replace_at (toLowerCase (handle ud)).

(** *** State setters *)

Definition setNotification (m : Message) (t : NotificationType) (s : State) : State :=
  {| view := view s; loginHandle := loginHandle s; loginWallet := loginWallet s;
     amount := amount s; txHash := txHash s; history := history s;
     notification := Some {| message := m; type := t |};
     detectedCap := detectedCap s; timeLeft := timeLeft s;
     timerActive := timerActive s; userData := userData s; storage := storage s |}.

Definition closeNotification (s : State) : State :=
  {| view := view s; loginHandle := loginHandle s; loginWallet := loginWallet s;
     amount := amount s; txHash := txHash s; history := history s;
     notification := None;
     detectedCap := detectedCap s; timeLeft := timeLeft s;
     timerActive := timerActive s; userData := userData s; storage := storage s |}.

Definition setLoginHandle (v : string) (s : State) : State :=
  {| view := view s; loginHandle := v; loginWallet := loginWallet s;
     amount := amount s; txHash := txHash s; history := history s;
     notification := notification s;
     detectedCap := detectedCap s; timeLeft := timeLeft s;
     timerActive := timerActive s; userData := userData s; storage := storage s |}.

Definition setLoginWallet (v : string) (s : State) : State :=
  {| view := view s; loginHandle := loginHandle s; loginWallet := v;
     amount := amount s; txHash := txHash s; history := history s;
     notification := notification s;
     detectedCap := detectedCap s; timeLeft := timeLeft s;
     timerActive := timerActive s; userData := userData s; storage := storage s |}.

Definition setAmount (n : number) (s : State) : State :=
  {| view := view s; loginHandle := loginHandle s; loginWallet := loginWallet s;
     amount := n; txHash := txHash s; history := history s;
     notification := notification s;
     detectedCap := detectedCap s; timeLeft := timeLeft s;
     timerActive := timerActive s; userData := userData s; storage := storage s |}.

Definition setTxHash (v : string) (s : State) : State :=
  {| view := view s; loginHandle := loginHandle s; loginWallet := loginWallet s;
     amount := amount s; txHash := v; history := history s;
     notification := notification s;
     detectedCap := detectedCap s; timeLeft := timeLeft s;
     timerActive := timerActive s; userData := userData s; storage := storage s |}.

Definition setHistory (h : Ledger) (s : State) : State :=
  {| view := view s; loginHandle := loginHandle s; loginWallet := loginWallet s;
     amount := amount s; txHash := txHash s; history := h;
     notification := notification s;
     detectedCap := detectedCap s; timeLeft := timeLeft s;
     timerActive := timerActive s; userData := userData s; storage := storage s |}.

Definition setTimeLeft (t : string) (running : bool) (s : State) : State :=
  {| view := view s; loginHandle := loginHandle s; loginWallet := loginWallet s;
     amount := amount s; txHash := txHash s; history := history s;
     notification := notification s;
     detectedCap := detectedCap s; timeLeft := t;
     timerActive := running; userData := userData s; storage := storage s |}.

(** *** Initial state and the history effect *)

(** The [useState] initialisers. *)
Definition initialState (ud : UserData) (st : option LedgerData) : State :=
  {| view := VERIFY;
     loginHandle := string_or (handle ud) "";
     loginWallet := string_or (wallet ud) "";
     amount := INITIAL_AMOUNT;
     txHash := "";
     history := Entries [];
     notification := None;
     detectedCap := number_or (actualCommit ud) DEFAULT_CAP;
     timeLeft := "24:00:00";
     timerActive := true;
     userData := ud;
     storage := st |}.

(** The body of the effect that depends on [userData.handle]:
    [setHistory (allData[handleKey] || [])].  A state setter that is handed
    a function applies it to the state it holds; [Object] applied to an
    array or an object returns it, so for the key [constructor] the history
    stays as it is. *)
Definition loadHistory (s : State) : State :=
  if truthy_string (handle (userData s)) then
    match storage s with
    | Some allData =>
        match ledger_get allData (handleKey (userData s)) with
        | Slice l => setHistory (Entries l) s
        | Missing => setHistory (Entries []) s
        | ObjectPrototype => setHistory Builtin s
        | ObjectConstructor => s
        end
    | None => s
    end
  else s.

(** First render: the effect runs once. *)
Definition mount (ud : UserData) (st : option LedgerData) : State :=
  loadHistory (initialState ud st).

(** After a handler: the effect runs again iff [userData.handle] changed. *)
Definition afterRender (old new : State) : State :=
  if String.eqb (handle (userData old)) (handle (userData new)) then new
  else loadHistory new.

(** The render of the [CONTRIBUTE] view calls [history.map]; it throws when
    [history] is not an array, and the component is gone. *)
Definition renders (s : State) : bool :=
  match view s, history s with
  | CONTRIBUTE, Builtin => false
  | _, _ => true
  end.

(** *** Countdown *)

Definition hours (distance : Z) : Z :=
  floor_div (rem distance (1000 * 60 * 60 * 24)) (1000 * 60 * 60).

Definition minutes (distance : Z) : Z :=
  floor_div (rem distance (1000 * 60 * 60)) (1000 * 60).

Definition seconds (distance : Z) : Z :=
  floor_div (rem distance (1000 * 60)) 1000.

Definition formatTimeLeft (distance : Z) : string :=
  padStart2 (toString (hours distance)) ++ ":" ++
  padStart2 (toString (minutes distance)) ++ ":" ++
  padStart2 (toString (seconds distance)).

(** One run of the interval callback, given [Date.now ()]. *)
Definition tick (PRESALE_END_TIME now : Z) (s : State) : State :=
  let distance := (PRESALE_END_TIME - now)%Z in
  if (distance <? 0)%Z then setTimeLeft "CLOSED" false s
  else setTimeLeft (formatTimeLeft distance) (timerActive s) s.

(** *** Handlers *)

(** [handle.startsWith('@') ? handle : `@${handle}`] *)
Definition storedHandle (h : string) : string :=
  if startsWith_at h then h else String at_sign h.

(** The updates of a successful verification. *)
Definition verified (h w : string) (userCap : number) (s : State) : State :=
  {| view := CONTRIBUTE;
     loginHandle := loginHandle s;
     loginWallet := loginWallet s;
     amount := userCap;
     txHash := txHash s;
     history := history s;
     notification := Some {| message := UPLINK_STABLE h userCap; type := SUCCESS |};
     detectedCap := userCap;
     timeLeft := timeLeft s;
     timerActive := timerActive s;
     userData :=
       {| handle := storedHandle h;
          wallet := w;
          actualCommit := Some userCap |};
     storage := storage s |}.

Definition normalizeHandle (input : string) : string :=
  toLowerCase (trim (replace_at input)).

Definition handleVerify (s : State) : State :=
  let h := normalizeHandle (loginHandle s) in
  let w := trim (loginWallet s) in
  if negb (truthy_string h) || negb (truthy_string w) then
    setNotification CREDENTIALS_MISSING ERROR s
  else if negb (SOLANA_ADDRESS_REGEX_test w) then
    setNotification FORMAT_ERROR ERROR s
  else
    match MOCK_JUNGLE_DB_get h with
    | Own recorded commit =>
        if negb (String.eqb recorded w) then setNotification SECURITY_WARNING ERROR s
        else verified h w commit s
    | Inherited =>
        (* [record] is truthy and [record.wallet] is [undefined] *)
        setNotification SECURITY_WARNING ERROR s
    | Absent =>
        verified h w (number_or (actualCommit (userData s)) DEFAULT_CAP) s
    end.

(** [handleAmountChange (val)], given [parseFloat (val)]. *)
Definition handleAmountChange (parsed : number) (s : State) : State :=
  let n := if isNaN parsed then Num 0 else parsed in
  let n := if gt n (detectedCap s) then detectedCap s else n in
  setAmount n s.

Definition handleAmountBlur (s : State) : State :=
  let n := amount s in
  let n := if lt n MINIMUM_CONTRIBUTION then MINIMUM_CONTRIBUTION else n in
  let n := if gt n (detectedCap s) then detectedCap s else n in
  setAmount (toFixed3 n) s.

(** [submitTx], given the results of [crypto.randomUUID ()] and
    [Date.now ()]. *)
Definition submitTx (uuid : string) (now : Z) (s : State) : State :=
  if String.eqb (timeLeft s) "CLOSED" then
    setNotification PHASE_END ERROR s
  else if negb (truthy_string (txHash s)) || (String.length (txHash s) <? 32)%nat then
    setNotification HASH_INVALID ERROR s
  else
    match history s with
    | Builtin =>
        (* the spread of a value that is not iterable throws *)
        s
    | Entries old =>
        let newSub :=
          {| sub_id := uuid;
             sub_missionId := "presale_contribution";
             sub_proofUrl := txHash s;
             sub_amount := amount s;
             sub_status := "PENDING";
             sub_timestamp := now |} in
        let newHistory := newSub :: old in
        let allData := match storage s with Some d => d | None => ∅ end in
        {| view := view s;
           loginHandle := loginHandle s;
           loginWallet := loginWallet s;
           amount := amount s;
           txHash := "";
           history := Entries newHistory;
           notification :=
             Some {| message := TRANSMISSION_COMPLETE; type := SUCCESS |};
           detectedCap := detectedCap s;
           timeLeft := timeLeft s;
           timerActive := timerActive s;
           userData := userData s;
           storage := Some (ledger_set (handleKey (userData s)) newHistory allData) |}
    end.

Definition copyAddress (s : State) : State :=
  setNotification ADDRESS_COPIED SUCCESS s.

(** *** Transitions of the mounted component *)

(** A handler can run when the control it is attached to is rendered. *)
Inductive step (PRESALE_END_TIME : Z) : State -> State -> Prop :=
| step_setLoginHandle v s :
    view s = VERIFY ->
    step PRESALE_END_TIME s (setLoginHandle v s)
| step_setLoginWallet v s :
    view s = VERIFY ->
    step PRESALE_END_TIME s (setLoginWallet v s)
| step_handleVerify s :
    view s = VERIFY ->
    step PRESALE_END_TIME s (afterRender s (handleVerify s))
| step_handleAmountChange parsed s :
    view s = CONTRIBUTE -> renders s = true ->
    step PRESALE_END_TIME s (handleAmountChange parsed s)
| step_handleAmountBlur s :
    view s = CONTRIBUTE -> renders s = true ->
    step PRESALE_END_TIME s (handleAmountBlur s)
| step_setTxHash v s :
    view s = CONTRIBUTE -> renders s = true ->
    step PRESALE_END_TIME s (setTxHash v s)
| step_submitTx uuid now s :
    view s = CONTRIBUTE -> renders s = true ->
    step PRESALE_END_TIME s (submitTx uuid now s)
| step_copyAddress s :
    view s = CONTRIBUTE -> renders s = true ->
    step PRESALE_END_TIME s (copyAddress s)
| step_closeNotification s :
    renders s = true ->
    step PRESALE_END_TIME s (closeNotification s)
| step_tick now s :
    timerActive s = true -> renders s = true ->
    step PRESALE_END_TIME s (tick PRESALE_END_TIME now s).

Inductive reachable (PRESALE_END_TIME : Z) : State -> Prop :=
| reachable_mount ud st :
    reachable PRESALE_END_TIME (mount ud st)
| reachable_step s s' :
    reachable PRESALE_END_TIME s ->
    step PRESALE_END_TIME s s' ->
    reachable PRESALE_END_TIME s'.

(** *** Reading the outcome of a handler off the state *)

Definition notified (m : Message) (s : State) : Prop :=
  option_map message (notification s) = Some m.

(** The persisted ledger slice of a handle key: what a later
    [JSON.parse (saved)[k]] finds among the own properties. *)
Definition slice (s : State) (k : string) : option (list Submission) :=
  match storage s with
  | Some allData => allData !! k
  | None => None
  end.

Definition entries_of (o : option (list Submission)) : list Submission :=
  match o with Some l => l | None => [] end.

(** The decimal digit [k]. *)
Definition digit (k : Z) : ascii := ascii_of_nat (48 + Z.to_nat k).

(** Two decimal digits. *)
Definition two_digit_text (n : Z) : string :=
  String (digit (n `div` 10)) (String (digit (n `mod` 10)) EmptyString).

(** [m <= a <= c] on numbers. *)
Definition in_range (m c a : number) : Prop :=
  match m, c, a with
  | Num m', Num c', Num a' => (m' <= a' /\ a' <= c')%Q
  | _, _, _ => False
  end.

End PresaleScreen.

(* ===================================================================== *)
(** ** AdminScreen: access gate and moderation queue *)
(* ===================================================================== *)

Module AdminScreen.
Import JS.

(** Field values of a Firestore document ([d.data () as any]). *)
Inductive JsValue : Type :=
| JUndefined
| JNull
| JBool (b : bool)
| JNumber (n : number)
| JString (s : string).

Definition truthy (v : JsValue) : bool :=
  match v with
  | JUndefined | JNull => false
  | JBool b => b
  | JNumber n => truthy_number n
  | JString s => truthy_string s
  end.

(** [v === 'PENDING']. *)
Definition is_PENDING (v : JsValue) : bool :=
  match v with
  | JString s => String.eqb s "PENDING"
  | _ => false
  end.

(** The session user of the auth provider; [email] is [string | null]. *)
Record User : Type := { email : option string }.

(** A document of a query snapshot: [d.id] and [d.data ()]. *)
Record Doc : Type := {
  doc_id : string;
  doc_data : gmap string JsValue
}.

Abbreviation Row := (gmap string JsValue).

(** [{ id: d.id, ...d.data () }]: the spread comes last and wins. *)
Definition row_of (d : Doc) : Row :=
  doc_data d ∪ {[ "id" := JString (doc_id d) ]}.

(** A property read [r.k]. *)
Definition prop (r : Row) (k : string) : JsValue :=
  match r !! k with Some v => v | None => JUndefined end.

(** [r.status || 'PENDING'] *)
Definition status_or_PENDING (r : Row) : JsValue :=
  if truthy (prop r "status") then prop r "status" else JString "PENDING".

(** The error handed to the snapshot error callback or caught around
    [updateDoc]; [e?.message]. *)
Record JsError : Type := { err_message : string }.

Definition message_or (e : option JsError) (d : string) : string :=
  match e with
  | Some e' => string_or (err_message e') d
  | None => d
  end.

Inductive Decision : Type := APPROVED | REJECTED.

(** Component state and the live snapshot listener held by the queue
    effect ([listening]). *)
Record State : Type := {
  authUser : option User;
  authReady : bool;
  applications : list Row;
  actionError : option string;
  toast : option string;
  listening : bool
}.

Definition initialState : State :=
  {| authUser := None; authReady := false; applications := [];
     actionError := None; toast := None; listening := false |}.

(** *** Access check *)

(** [isAllowed], with the value of [getAdminEmail ()]. *)
Definition isAllowed (adminEmail : option string) (u : option User) : bool :=
  match u with
  | None => false
  | Some u' =>
      match email u' with
      | None => false
      | Some e =>
          if negb (truthy_string e) then false
          else
            match adminEmail with
            | None => false
            | Some a =>
                if negb (truthy_string a) then false
                else String.eqb (toLowerCase e) (toLowerCase a)
            end
      end
  end.

(** *** State setters *)

Definition setAuthUser (u : option User) (s : State) : State :=
  {| authUser := u; authReady := authReady s; applications := applications s;
     actionError := actionError s; toast := toast s; listening := listening s |}.

Definition setAuthReady (b : bool) (s : State) : State :=
  {| authUser := authUser s; authReady := b; applications := applications s;
     actionError := actionError s; toast := toast s; listening := listening s |}.

Definition setApplications (rows : list Row) (s : State) : State :=
  {| authUser := authUser s; authReady := authReady s; applications := rows;
     actionError := actionError s; toast := toast s; listening := listening s |}.

Definition setActionError (e : option string) (s : State) : State :=
  {| authUser := authUser s; authReady := authReady s; applications := applications s;
     actionError := e; toast := toast s; listening := listening s |}.

Definition setToast (t : option string) (s : State) : State :=
  {| authUser := authUser s; authReady := authReady s; applications := applications s;
     actionError := actionError s; toast := t; listening := listening s |}.

Definition setListening (b : bool) (s : State) : State :=
  {| authUser := authUser s; authReady := authReady s; applications := applications s;
     actionError := actionError s; toast := toast s; listening := b |}.

(** *** The queue effect *)

(** The effect body: clear and return, or attach the snapshot listener. *)
Definition queueEffect (adminEmail : option string) (s : State) : State :=
  if negb (authReady s) || negb (isAllowed adminEmail (authUser s)) then
    setApplications [] s
  else setListening true s.

(** The cleanup [() => unsub ()] of the previous run. *)
Definition cleanup (s : State) : State := setListening false s.

(** After a state update: the effect is cleaned up and run again iff one of
    its dependencies [authReady], [isAllowed] changed. *)
Definition afterRender (adminEmail : option string) (old new : State) : State :=
  if Bool.eqb (authReady old) (authReady new)
     && Bool.eqb (isAllowed adminEmail (authUser old))
                 (isAllowed adminEmail (authUser new))
  then new
  else queueEffect adminEmail (cleanup new).

(** First render: both effects run; the queue effect sees
    [authReady = false]. *)
Definition mount (adminEmail : option string) : State :=
  queueEffect adminEmail initialState.

(** *** Callbacks *)

(** The [onAuthStateChanged] callback. *)
Definition onAuthStateChanged (u : option User) (s : State) : State :=
  setAuthReady true (setAuthUser u s).

(** The snapshot callback, given [snap.docs]. *)
Definition onSnapshotNext (docs : list Doc) (s : State) : State :=
  let rows := map row_of docs in
  setApplications
    (List.filter (fun r => is_PENDING (status_or_PENDING r)) rows)
    (setActionError None s).

(** The snapshot error callback.  The store delivers nothing to a listener
    after an error. *)
Definition onSnapshotError (err : option JsError) (s : State) : State :=
  setListening false
    (setActionError (Some (message_or err "FIRESTORE_SUBSCRIBE_FAILED"))
       (setApplications [] s)).

(** [updateStatus] up to its [await]. *)
Definition updateStatus_begin (s : State) : State := setActionError None s.

(** [updateStatus] after [updateDoc] settled: [None] for success, [Some e]
    for the caught rejection [e]. *)
Definition updateStatus_settle (status : Decision)
    (outcome : option (option JsError)) (s : State) : State :=
  match outcome with
  | None =>
      match status with
      | APPROVED => setToast (Some "APPROVED: Application status updated.") s
      | REJECTED => s
      end
  | Some e => setActionError (Some (message_or e "UPDATE_FAILED")) s
  end.

(** The timeout that hides the toast. *)
Definition toastTimeout (s : State) : State := setToast None s.

(** *** Render *)

Inductive Screen : Type :=
| SYNCING_AUTH
| LOGIN
| ACCESS_DENIED (signedInAs : option string)
| QUEUE (err : option string) (t : option string) (queue : list Row).

Definition render (adminEmail : option string) (s : State) : Screen :=
  if negb (authReady s) then SYNCING_AUTH
  else
    match authUser s with
    | None => LOGIN
    | Some u =>
        if negb (isAllowed adminEmail (authUser s)) then ACCESS_DENIED (email u)
        else QUEUE (actionError s) (toast s) (applications s)
    end.

(** The queue data on screen. *)
Definition presentedQueue (adminEmail : option string) (s : State) : list Row :=
  match render adminEmail s with
  | QUEUE _ _ q => q
  | _ => []
  end.

(** The failure description on screen. *)
Definition presentedError (adminEmail : option string) (s : State) : option string :=
  match render adminEmail s with
  | QUEUE e _ _ => e
  | _ => None
  end.

(** The access gate, read off the branches of the render. *)
Inductive AccessState : Type :=
| AUTH_PENDING
| UNAUTHENTICATED
| AUTHENTICATED_DENIED
| AUTHENTICATED_ALLOWED.

Definition accessState (adminEmail : option string) (s : State) : AccessState :=
  if negb (authReady s) then AUTH_PENDING
  else
    match authUser s with
    | None => UNAUTHENTICATED
    | Some _ =>
        if negb (isAllowed adminEmail (authUser s)) then AUTHENTICATED_DENIED
        else AUTHENTICATED_ALLOWED
    end.

(** *** Transitions of the mounted component *)

Inductive step (adminEmail : option string) : State -> State -> Prop :=
| step_onAuthStateChanged u s :
    step adminEmail s (afterRender adminEmail s (onAuthStateChanged u s))
| step_setAuthUser u s :
    (* the two updates of the callback, committed one at a time *)
    step adminEmail s (afterRender adminEmail s (setAuthUser u s))
| step_setAuthReady s :
    step adminEmail s (afterRender adminEmail s (setAuthReady true s))
| step_onSnapshotNext docs s :
    listening s = true ->
    step adminEmail s (onSnapshotNext docs s)
| step_onSnapshotError err s :
    listening s = true ->
    step adminEmail s (onSnapshotError err s)
| step_updateStatus_begin s :
    accessState adminEmail s = AUTHENTICATED_ALLOWED ->
    step adminEmail s (updateStatus_begin s)
| step_updateStatus_settle status outcome s :
    step adminEmail s (updateStatus_settle status outcome s)
| step_toastTimeout s :
    step adminEmail s (toastTimeout s).

Inductive reachable (adminEmail : option string) : State -> Prop :=
| reachable_mount :
    reachable adminEmail (mount adminEmail)
| reachable_step s s' :
    reachable adminEmail s ->
    step adminEmail s s' ->
    reachable adminEmail s'.

(** The listener exists only while the gate is open, and while the gate is
    shut the component holds no queue data. *)
Definition gated (adminEmail : option string) (s : State) : Prop :=
  (listening s = true ->
     authReady s = true /\ isAllowed adminEmail (authUser s) = true) /\
  (authReady s && isAllowed adminEmail (authUser s) = false ->
     applications s = []).

End AdminScreen.

(* ===================================================================== *)
(** ** Concrete sessions *)
(* ===================================================================== *)

Module Scenarios.
Import JS PresaleScreen.

(** A first visit: no user data, nothing stored. *)
Definition freshUser : UserData :=
  {| handle := ""; wallet := ""; actualCommit := None |}.

Definition kingWallet : string := "7xKX99kR7xKX99kR7xKX99kR7xKX99kR7xKX99kR".
Definition someWallet : string := "Ape1111111111111111111111111111111111111".
Definition proof40 : string := "5VERv8NMvzbJMEkV8xnrLkEaWRtSz9CosKDYjCJj".

(** The login form filled in on a mounted component. *)
Definition filled (h w : string) (ud : UserData) (st : option LedgerData) : State :=
  setLoginWallet w (setLoginHandle h (mount ud st)).

(** The ENTER_UPLINK click and the render that follows it. *)
Definition entered (s : State) : State := afterRender s (handleVerify s).

(** monky_king verifies with the recorded wallet. *)
Definition kingVerified : State := entered (filled "monky_king" kingWallet freshUser None).

(** ... pastes a signature, then types 0 into the amount field. *)
Definition kingZero : State :=
  handleAmountChange (Num 0) (setTxHash proof40 kingVerified).

(** A later visit of the same browser session: the component mounts with
    the user data the earlier verification left behind, and an unknown
    handle is entered. *)
Definition strangerAfterKing : State :=
  filled "nobody" someWallet (userData kingVerified) None.

Definition strangerFresh : State := filled "nobody" someWallet freshUser None.

(** monky_king with a wallet that is not an address at all. *)
Definition kingMalformed : State := filled "monky_king" "abc" freshUser None.

(** A handle whose grouping key is [__proto__]. *)
Definition protoVerified : State :=
  entered (filled "@@__proto__" someWallet freshUser None).

Definition protoReady : State := setTxHash proof40 protoVerified.

(** An earlier submission of monky_king, and a ledger that holds it. *)
Definition earlier : Submission :=
  {| sub_id := "id-0"; sub_missionId := "presale_contribution";
     sub_proofUrl := proof40; sub_amount := Num (5 # 1);
     sub_status := "PENDING"; sub_timestamp := 0 |}.

Definition kingLedger : option LedgerData :=
  Some {[ "monky_king" := [earlier] ]}.

(** monky_king verifies as one types a handle: marker, capitals, spaces;
    the ledger of the earlier visit is stored. *)
Definition kingAsTyped : State :=
  entered (filled " @Monky_King " kingWallet freshUser kingLedger).

(** A visitor who verifies the handle @@constructor in a session that holds
    monky_king's history. *)
Definition constructorAfterKing : State :=
  entered (filled "@@constructor" someWallet (userData kingAsTyped) kingLedger).

End Scenarios.

Module AdminScenarios.
Import JS AdminScreen.

Definition configuredEmail : option string := Some "Mod@Example.com".

Definition moderator : User := {| email := Some "mod@example.com" |}.
Definition visitor : User := {| email := Some "eve@example.com" |}.

Definition application (i : string) (fields : list (string * JsValue)) : Doc :=
  {| doc_id := i; doc_data := list_to_map fields |}.

(** A snapshot: one pending, one approved, one without a status field and
    one rejected application. *)
Definition snapshot : list Doc :=
  [ application "a1" [("twitterName", JString "ape"); ("status", JString "PENDING")];
    application "a2" [("twitterName", JString "bob"); ("status", JString "APPROVED")];
    application "a3" [("twitterName", JString "cat")];
    application "a4" [("twitterName", JString "dan"); ("status", JString "REJECTED")] ].

Definition signedIn (adminEmail : option string) (u : User) : State :=
  afterRender adminEmail (mount adminEmail)
    (onAuthStateChanged (Some u) (mount adminEmail)).

Definition moderating : State :=
  onSnapshotNext snapshot (signedIn configuredEmail moderator).

End AdminScenarios.

(* ===================================================================== *)
(** ** Further definitions: amounts, session and moderation writes *)
(* ===================================================================== *)

Module Amounts.
Import JS PresaleScreen.




(** The session identity of the [CONTRIBUTE] view. *)
Definition session_ok (s : State) : Prop :=
  view s = CONTRIBUTE ->
  SOLANA_ADDRESS_REGEX_test (wallet (userData s)) = true /\
  startsWith_at (handle (userData s)) = true /\
  toLowerCase (handle (userData s)) = handle (userData s) /\
  actualCommit (userData s) = Some (detectedCap s) /\
  isNaN (detectedCap s) = false.

(** Once the countdown shows CLOSED the interval is cleared. *)
Definition closed_stops (s : State) : Prop :=
  timeLeft s = "CLOSED" -> timerActive s = false.

End Amounts.

Module Moderation.
Import JS AdminScreen.

(** [v === t] for a text [t]. *)
Definition is_text (t : string) (v : JsValue) : bool :=
  match v with
  | JString s => String.eqb s t
  | _ => false
  end.

(** The [disabled] attributes of the two buttons of a row. *)
Definition approveDisabled (a : Row) : bool := is_text "APPROVED" (prop a "status").
Definition rejectDisabled (a : Row) : bool := is_text "REJECTED" (prop a "status").

Definition decisionText (d : Decision) : string :=
  match d with
  | APPROVED => "APPROVED"
  | REJECTED => "REJECTED"
  end.

(** [authUser?.email || null] *)
Definition reviewerOf (u : option User) : JsValue :=
  match u with
  | Some u' =>
      match email u' with
      | Some e => if truthy_string e then JString e else JNull
      | None => JNull
      end
  | None => JNull
  end.

(** The fields [updateStatus] hands to [updateDoc], given the text of
    [new Date ().toISOString ()]. *)
Definition updateStatus_fields (status : Decision) (reviewedAt : string)
    (u : option User) : gmap string JsValue :=
  list_to_map
    [ ("status", JString (decisionText status));
      ("reviewedAt", JString reviewedAt);
      ("reviewer", reviewerOf u) ].

(** What [updateDoc] does to a stored document: the given fields replace
    the fields of the same name, the others stay. *)
Definition updateDoc (fields : gmap string JsValue) (d : Doc) : Doc :=
  {| doc_id := doc_id d; doc_data := fields ∪ doc_data d |}.

(** Every row of the queue counts as PENDING. *)
Definition all_pending (s : State) : Prop :=
  Forall (fun r => status_or_PENDING r = JString "PENDING") (applications s).

(** Queue data is held only while a listener is attached. *)
Definition live (s : State) : Prop :=
  listening s = false -> applications s = [].

End Moderation.

(* ===================================================================== *)
(** ** Facts about the JavaScript fragment *)
(* ===================================================================== *)

Module JSFacts.
Import JS.

Lemma truthy_string_true (s : string) : truthy_string s = true <-> s <> "".
Proof. destruct s; simpl; split; congruence. Qed.

Lemma to_lower_char_idempotent (c : ascii) :
  to_lower_char (to_lower_char c) = to_lower_char c.
Proof. destruct c as [[] [] [] [] [] [] [] []]; reflexivity. Qed.

Lemma toLowerCase_idempotent (s : string) :
  toLowerCase (toLowerCase s) = toLowerCase s.
Proof.
  induction s as [| c r IH]; simpl.
  - reflexivity.
  - now rewrite to_lower_char_idempotent, IH.
Qed.

Lemma to_lower_char_at (c : ascii) :
  Ascii.eqb (to_lower_char c) at_sign = Ascii.eqb c at_sign.
Proof. destruct c as [[] [] [] [] [] [] [] []]; reflexivity. Qed.

Lemma to_lower_char_space (c : ascii) :
  is_space (to_lower_char c) = is_space c.
Proof. destruct c as [[] [] [] [] [] [] [] []]; reflexivity. Qed.



Lemma toLowerCase_startsWith_at (s : string) :
  startsWith_at (toLowerCase s) = startsWith_at s.
Proof. destruct s; simpl; [reflexivity | apply to_lower_char_at]. Qed.

Lemma toLowerCase_truthy (s : string) :
  truthy_string (toLowerCase s) = truthy_string s.
Proof. destruct s; reflexivity. Qed.

(** Removing the first marker of a string that starts with one. *)
Lemma replace_at_cons_at (s : string) :
  replace_at (String at_sign s) = s.
Proof. reflexivity. Qed.

Lemma startsWith_at_inv (s : string) :
  startsWith_at s = true -> exists r, s = String at_sign r.
Proof.
  destruct s as [| c r]; simpl; [discriminate |].
  intros H. apply Ascii.eqb_eq in H. subst c. now exists r.
Qed.

(** [trimStart] leaves no white space in front. *)
Lemma trimStart_first_char (s : string) (c : ascii) :
  first_char (trimStart s) = Some c -> is_space c = false.
Proof.
  induction s as [| a r IH]; simpl; [discriminate |].
  destruct (is_space a) eqn:E; [exact IH |].
  simpl. intros [= <-]. exact E.
Qed.

(** [trimEnd] keeps the first code unit of whatever it keeps. *)
Lemma trimEnd_first_char (s : string) (c : ascii) :
  first_char (trimEnd s) = Some c -> first_char s = Some c.
Proof.
  destruct s as [| a r]; simpl; [discriminate |].
  destruct (trimEnd r); [destruct (is_space a) |]; simpl; congruence.
Qed.

(** [trimEnd] leaves no white space at the end. *)
Lemma trimEnd_last_char (s : string) (c : ascii) :
  last_char (trimEnd s) = Some c -> is_space c = false.
Proof.
  induction s as [| a r IH]; simpl; [discriminate |].
  destruct (trimEnd r) as [| b t] eqn:E.
  - destruct (is_space a) eqn:Ea; simpl; [discriminate |].
    intros [= <-]. exact Ea.
  - intros H. apply IH. exact H.
Qed.

Lemma trim_first_char (s : string) (c : ascii) :
  first_char (trim s) = Some c -> is_space c = false.
Proof.
  unfold trim. intros H. apply trimEnd_first_char in H.
  now apply trimStart_first_char in H.
Qed.

Lemma trim_last_char (s : string) (c : ascii) :
  last_char (trim s) = Some c -> is_space c = false.
Proof. unfold trim. apply trimEnd_last_char. Qed.

Lemma length_append (a b : string) :
  String.length (a ++ b) = (String.length a + String.length b)%nat.
Proof. induction a as [| c r IH]; simpl; [reflexivity | now rewrite IH]. Qed.

Lemma padStart2_length (s : string) :
  (2 <= String.length (padStart2 s))%nat.
Proof.
  unfold padStart2.
  destruct s as [| a [| b r]]; simpl; lia.
Qed.

(** [Math.floor ((d % (b * c)) / b)] is the [b]-digit of [d] in base [c]. *)
Lemma floor_rem_digit (d b c : Z) :
  (0 <= d)%Z -> (0 < b)%Z -> (0 < c)%Z ->
  floor_div (rem d (b * c)) b = ((d `div` b) `mod` c)%Z.
Proof.
  intros Hd Hb Hc. unfold floor_div, rem.
  rewrite Z.rem_mod_nonneg by nia.
  rewrite Z.rem_mul_r by lia.
  rewrite (Z.mul_comm b), Z.add_comm, Z.div_add_l by lia.
  rewrite (Z.div_small (d `mod` b)) by (apply Z.mod_pos_bound; lia).
  lia.
Qed.

End JSFacts.

(* ===================================================================== *)
(** ** The countdown *)
(* ===================================================================== *)

Module CountdownFacts.
Import JS PresaleScreen JSFacts.

Lemma hours_digit (d : Z) :
  (0 <= d)%Z -> hours d = ((d `div` 3600000) `mod` 24)%Z.
Proof.
  intros H. rewrite <- (floor_rem_digit d 3600000 24) by lia. reflexivity.
Qed.

Lemma minutes_digit (d : Z) :
  (0 <= d)%Z -> minutes d = ((d `div` 60000) `mod` 60)%Z.
Proof.
  intros H. rewrite <- (floor_rem_digit d 60000 60) by lia. reflexivity.
Qed.

Lemma seconds_digit (d : Z) :
  (0 <= d)%Z -> seconds d = ((d `div` 1000) `mod` 60)%Z.
Proof.
  intros H. rewrite <- (floor_rem_digit d 1000 60) by lia. reflexivity.
Qed.

(** A formatted remaining time is at least eight code units long, so it is
    never the text ["CLOSED"]. *)
Lemma formatTimeLeft_not_CLOSED (d : Z) : formatTimeLeft d <> "CLOSED".
Proof.
  intros H. apply (f_equal String.length) in H.
  unfold formatTimeLeft in H. rewrite !length_append in H.
  pose proof (padStart2_length (toString (hours d))).
  pose proof (padStart2_length (toString (minutes d))).
  pose proof (padStart2_length (toString (seconds d))).
  simpl in H. lia.
Qed.

Lemma tick_open (END now : Z) (s : State) :
  (0 <= END - now)%Z ->
  timeLeft (tick END now s) = formatTimeLeft (END - now).
Proof.
  intros H. unfold tick.
  destruct (Z.ltb_spec (END - now) 0); [lia | reflexivity].
Qed.

Lemma tick_closed (END now : Z) (s : State) :
  (END - now < 0)%Z ->
  timeLeft (tick END now s) = "CLOSED" /\ timerActive (tick END now s) = false.
Proof.
  intros H. unfold tick.
  destruct (Z.ltb_spec (END - now) 0); [split; reflexivity | lia].
Qed.

(** C6, as stated, fails: twenty-five hours before the deadline the hour
    component is 1, not floor (delta / 3600000) = 25. *)
Lemma hours_wrap_at_one_day :
  (0 <= 90000000 - 0)%Z /\
  hours (90000000 - 0) = 1%Z /\
  ((90000000 - 0) `div` 3600000)%Z = 25%Z /\
  hours (90000000 - 0) <> ((90000000 - 0) `div` 3600000)%Z.
Proof. repeat split; try reflexivity; try lia. vm_compute. discriminate. Qed.

(** C6 (amended).  For a tick with delta = deadline - now >= 0 the remaining
    time is the floor decomposition of delta, the hours taken modulo 24:
    hours = floor (delta / 3600000) mod 24, minutes = floor (delta / 60000)
    mod 60, seconds = floor (delta / 1000) mod 60; every component is
    non-negative and nothing is rounded up; the hours are floor (delta /
    3600000) itself while delta is below one day.  Once delta < 0 the
    result is the text CLOSED, which has no components, and the timer is
    stopped. *)
Theorem tick_remaining (END now : Z) (s : State) :
  ((0 <= END - now)%Z ->
     timeLeft (tick END now s) = formatTimeLeft (END - now) /\
     timeLeft (tick END now s) <> "CLOSED" /\
     hours (END - now) = (((END - now) `div` 3600000) `mod` 24)%Z /\
     minutes (END - now) = (((END - now) `div` 60000) `mod` 60)%Z /\
     seconds (END - now) = (((END - now) `div` 1000) `mod` 60)%Z /\
     (0 <= hours (END - now) < 24)%Z /\
     (0 <= minutes (END - now) < 60)%Z /\
     (0 <= seconds (END - now) < 60)%Z /\
     ((END - now < 86400000)%Z ->
        hours (END - now) = ((END - now) `div` 3600000)%Z)) /\
  ((END - now < 0)%Z ->
     timeLeft (tick END now s) = "CLOSED" /\
     timerActive (tick END now s) = false).
Proof.
  split.
  - intros Hd.
    pose proof (hours_digit _ Hd) as Hh.
    pose proof (minutes_digit _ Hd) as Hm.
    pose proof (seconds_digit _ Hd) as Hs.
    rewrite tick_open by exact Hd.
    repeat split; try assumption.
    + apply formatTimeLeft_not_CLOSED.
    + rewrite Hh. apply Z.mod_pos_bound. lia.
    + rewrite Hh. apply Z.mod_pos_bound. lia.
    + rewrite Hm. apply Z.mod_pos_bound. lia.
    + rewrite Hm. apply Z.mod_pos_bound. lia.
    + rewrite Hs. apply Z.mod_pos_bound. lia.
    + rewrite Hs. apply Z.mod_pos_bound. lia.
    + intros Hday. rewrite Hh. apply Z.mod_small. split.
      * apply Z.div_pos; lia.
      * apply Z.div_lt_upper_bound; lia.
  - apply tick_closed.
Qed.

(** One hour, two minutes and three seconds before the deadline, and one
    second after it. *)
Lemma tick_remaining_witness :
  (timeLeft (tick 3723000 0 Scenarios.kingVerified) = "01:02:03" /\
   hours (3723000 - 0) = 1%Z) /\
  timeLeft (tick 0 1000 Scenarios.kingVerified) = "CLOSED".
Proof.
  destruct (tick_remaining 3723000 0 Scenarios.kingVerified) as [Hopen _].
  destruct (tick_remaining 0 1000 Scenarios.kingVerified) as [_ Hclosed].
  destruct (Hopen ltac:(lia)) as (Ht & _ & _ & _ & _ & _ & _ & _ & Hh).
  destruct (Hclosed ltac:(lia)) as [Hc _].
  split; [split |].
  - rewrite Ht. reflexivity.
  - rewrite (Hh ltac:(lia)). reflexivity.
  - exact Hc.
Defined.

End CountdownFacts.

(* ===================================================================== *)
(** ** Verification and cap resolution *)
(* ===================================================================== *)

Module VerifyFacts.
Import JS PresaleScreen JSFacts Scenarios.

Lemma regex_truthy (w : string) :
  SOLANA_ADDRESS_REGEX_test w = true -> truthy_string w = true.
Proof. destruct w; [discriminate | reflexivity]. Qed.

Lemma number_or_truthy (x : option number) (d : number) :
  truthy_number d = true -> truthy_number (number_or x d) = true.
Proof.
  intros Hd. destruct x as [n |]; simpl; [| exact Hd].
  destruct (truthy_number n) eqn:E; assumption.
Qed.

Lemma own_entry_truthy (h w : string) (c : number) :
  MOCK_JUNGLE_DB !! h = Some (w, c) -> truthy_string h = true.
Proof. destruct h; [vm_compute; discriminate | reflexivity]. Qed.

(** The three ways [handleVerify] can end. *)
Lemma handleVerify_outcome (s : State) :
  let h := normalizeHandle (loginHandle s) in
  let w := trim (loginWallet s) in
  (exists m, handleVerify s = setNotification m ERROR s /\
             (m = CREDENTIALS_MISSING \/ m = FORMAT_ERROR \/ m = SECURITY_WARNING)) \/
  (exists cap, handleVerify s = verified h w cap s /\
               truthy_string h = true /\ SOLANA_ADDRESS_REGEX_test w = true).
Proof.
  intros h w. unfold handleVerify. fold h w.
  destruct (truthy_string h) eqn:Hh; simpl.
  2: { left. exists CREDENTIALS_MISSING. auto. }
  destruct (truthy_string w) eqn:Hw; simpl.
  2: { left. exists CREDENTIALS_MISSING. auto. }
  destruct (SOLANA_ADDRESS_REGEX_test w) eqn:Hr; simpl.
  2: { left. exists FORMAT_ERROR. auto. }
  destruct (MOCK_JUNGLE_DB_get h) as [rw rc | |].
  - destruct (String.eqb rw w); simpl.
    + right. exists rc. auto.
    + left. exists SECURITY_WARNING. auto.
  - left. exists SECURITY_WARNING. auto.
  - right. eexists. auto.
Qed.

Lemma handleVerify_success (s : State) (h : string) (cap : number) :
  notified (UPLINK_STABLE h cap) (handleVerify s) ->
  h = normalizeHandle (loginHandle s) /\
  handleVerify s = verified h (trim (loginWallet s)) cap s /\
  truthy_string h = true.
Proof.
  unfold notified. intros H.
  destruct (handleVerify_outcome s) as [(m & E & Hm) | (c & E & Ht & _)];
    rewrite E in H; simpl in H.
  - destruct Hm as [-> | [-> | ->]]; discriminate.
  - injection H as <- <-. rewrite E. auto.
Qed.

(** C2, as stated, fails: the cap of an unknown handle is not a constant.
    A stranger who enters after monky_king verified in the same session
    inherits monky_king's cap of 10; on a first visit the same input
    resolves to 0.15. *)
Lemma fallback_cap_follows_session :
  MOCK_JUNGLE_DB !! normalizeHandle (loginHandle strangerAfterKing) = None /\
  MOCK_JUNGLE_DB !! normalizeHandle (loginHandle strangerFresh) = None /\
  SOLANA_ADDRESS_REGEX_test (trim (loginWallet strangerAfterKing)) = true /\
  loginHandle strangerAfterKing = loginHandle strangerFresh /\
  loginWallet strangerAfterKing = loginWallet strangerFresh /\
  detectedCap (handleVerify strangerAfterKing) = Num (10 # 1) /\
  detectedCap (handleVerify strangerFresh) = DEFAULT_CAP /\
  detectedCap (handleVerify strangerAfterKing) <> DEFAULT_CAP.
Proof.
  repeat split; try (vm_compute; reflexivity).
  vm_compute. discriminate.
Qed.

(** C2 (amended).  For a verify call whose normalized handle is non-empty,
    whose trimmed wallet matches the address grammar, and whose handle is
    neither in the allocation table nor a property name inherited from
    [Object.prototype]: verify succeeds, and the cap it resolves is the
    session's recorded [actualCommit] when that is set and neither 0 nor
    NaN, and the constant 0.15 otherwise; it is never zero and never an
    error. *)
Theorem handleVerify_unknown_handle (s : State) :
  truthy_string (normalizeHandle (loginHandle s)) = true ->
  SOLANA_ADDRESS_REGEX_test (trim (loginWallet s)) = true ->
  MOCK_JUNGLE_DB !! normalizeHandle (loginHandle s) = None ->
  inherited_name (normalizeHandle (loginHandle s)) = false ->
  let h := normalizeHandle (loginHandle s) in
  let cap := number_or (actualCommit (userData s)) DEFAULT_CAP in
  notified (UPLINK_STABLE h cap) (handleVerify s) /\
  type <$> notification (handleVerify s) = Some SUCCESS /\
  view (handleVerify s) = CONTRIBUTE /\
  detectedCap (handleVerify s) = cap /\
  amount (handleVerify s) = cap /\
  actualCommit (userData (handleVerify s)) = Some cap /\
  truthy_number cap = true /\
  (forall n, actualCommit (userData s) = Some n -> truthy_number n = true -> cap = n) /\
  (actualCommit (userData s) = None -> cap = DEFAULT_CAP) /\
  (forall n, actualCommit (userData s) = Some n -> truthy_number n = false ->
             cap = DEFAULT_CAP).
Proof.
  intros Hh Hr Hdb Hinh h cap.
  assert (E : handleVerify s = verified h (trim (loginWallet s)) cap s).
  { unfold handleVerify. rewrite Hh, (regex_truthy _ Hr), Hr. simpl.
    unfold MOCK_JUNGLE_DB_get. rewrite Hdb, Hinh. reflexivity. }
  rewrite E. unfold notified. simpl.
  repeat split; try reflexivity.
  - apply number_or_truthy. reflexivity.
  - intros n Hn Ht. unfold cap. rewrite Hn. simpl. now rewrite Ht.
  - intros Hn. unfold cap. now rewrite Hn.
  - intros n Hn Ht. unfold cap. rewrite Hn. simpl. now rewrite Ht.
Qed.

(** The stranger of the counterexample, on a first visit. *)
Lemma handleVerify_unknown_handle_witness :
  notified (UPLINK_STABLE "nobody" DEFAULT_CAP) (handleVerify strangerFresh) /\
  detectedCap (handleVerify strangerFresh) = DEFAULT_CAP.
Proof.
  destruct (handleVerify_unknown_handle strangerFresh)
    as (Hn & _ & _ & Hc & _); try (vm_compute; reflexivity).
  split; [exact Hn | exact Hc].
Defined.

(** C3, as stated, fails: monky_king is in the table and the submitted
    wallet differs from the recorded one, yet the failure is the format
    error, not the wallet mismatch. *)
Lemma malformed_wallet_is_not_mismatch :
  MOCK_JUNGLE_DB !! normalizeHandle (loginHandle kingMalformed)
    = Some (kingWallet, Num (10 # 1)) /\
  loginWallet kingMalformed <> kingWallet /\
  trim (loginWallet kingMalformed) <> kingWallet /\
  notified FORMAT_ERROR (handleVerify kingMalformed) /\
  ~ notified SECURITY_WARNING (handleVerify kingMalformed).
Proof.
  repeat split; try (vm_compute; reflexivity); vm_compute; discriminate.
Qed.

(** C3 (amended).  For a verify call whose normalized handle is in the
    allocation table, verify fails with the wallet mismatch iff the trimmed
    submitted wallet matches the address grammar and differs from the
    recorded wallet (an empty or malformed wallet fails earlier, with
    missing credentials or the format error); in that case no cap is
    resolved: the session identity, the detected cap, the amount and the
    view are left unchanged. *)
Theorem handleVerify_known_handle (s : State) (recorded : string) (commit : number) :
  MOCK_JUNGLE_DB !! normalizeHandle (loginHandle s) = Some (recorded, commit) ->
  (notified SECURITY_WARNING (handleVerify s) <->
     SOLANA_ADDRESS_REGEX_test (trim (loginWallet s)) = true /\
     trim (loginWallet s) <> recorded) /\
  (notified SECURITY_WARNING (handleVerify s) ->
     handleVerify s = setNotification SECURITY_WARNING ERROR s /\
     userData (handleVerify s) = userData s /\
     detectedCap (handleVerify s) = detectedCap s /\
     amount (handleVerify s) = amount s /\
     view (handleVerify s) = view s /\
     history (handleVerify s) = history s /\
     storage (handleVerify s) = storage s).
Proof.
  intros Hdb.
  pose proof (own_entry_truthy _ _ _ Hdb) as Hh.
  assert (Hcase :
    handleVerify s =
      if negb (truthy_string (trim (loginWallet s))) then
        setNotification CREDENTIALS_MISSING ERROR s
      else if negb (SOLANA_ADDRESS_REGEX_test (trim (loginWallet s))) then
        setNotification FORMAT_ERROR ERROR s
      else if negb (String.eqb recorded (trim (loginWallet s))) then
        setNotification SECURITY_WARNING ERROR s
      else verified (normalizeHandle (loginHandle s)) (trim (loginWallet s)) commit s).
  { unfold handleVerify, MOCK_JUNGLE_DB_get. rewrite Hh, Hdb. simpl.
    destruct (truthy_string (trim (loginWallet s))); reflexivity. }
  assert (Hiff : notified SECURITY_WARNING (handleVerify s) <->
     SOLANA_ADDRESS_REGEX_test (trim (loginWallet s)) = true /\
     trim (loginWallet s) <> recorded).
  { rewrite Hcase. unfold notified.
    destruct (truthy_string (trim (loginWallet s))) eqn:Hw; simpl.
    2: { split; [discriminate |]. intros [Hr _].
         apply regex_truthy in Hr. congruence. }
    destruct (SOLANA_ADDRESS_REGEX_test (trim (loginWallet s))) eqn:Hr; simpl.
    2: { split; [discriminate | intros [? _]; discriminate]. }
    destruct (String.eqb_spec recorded (trim (loginWallet s))) as [Heq | Hne]; simpl.
    - split; [discriminate | intros [_ Hd]; congruence].
    - split; [intros _; split; congruence | reflexivity]. }
  split; [exact Hiff |].
  intros Hn. apply Hiff in Hn as [Hr Hd].
  assert (E : handleVerify s = setNotification SECURITY_WARNING ERROR s).
  { rewrite Hcase, (regex_truthy _ Hr), Hr. simpl.
    destruct (String.eqb_spec recorded (trim (loginWallet s))); [congruence | reflexivity]. }
  rewrite E. repeat split; reflexivity.
Qed.

(** monky_king with degen_ape's wallet. *)
Lemma handleVerify_known_handle_witness :
  notified SECURITY_WARNING
    (handleVerify (filled "@Monky_King " someWallet freshUser None)) /\
  view (handleVerify (filled "@Monky_King " someWallet freshUser None)) = VERIFY.
Proof.
  destruct (handleVerify_known_handle
              (filled "@Monky_King " someWallet freshUser None)
              kingWallet (Num (10 # 1)))
    as [Hiff Hframe]; [vm_compute; reflexivity |].
  assert (Hn : notified SECURITY_WARNING
                 (handleVerify (filled "@Monky_King " someWallet freshUser None))).
  { apply Hiff. split; [vm_compute; reflexivity | vm_compute; discriminate]. }
  split; [exact Hn |].
  destruct (Hframe Hn) as (_ & _ & _ & _ & Hv & _). rewrite Hv. reflexivity.
Defined.

End VerifyFacts.

(* ===================================================================== *)
(** ** The session handle and the grouping key *)
(* ===================================================================== *)

Module HandleFacts.
Import JS PresaleScreen JSFacts Scenarios VerifyFacts.

Lemma storedHandle_startsWith_at (h : string) :
  startsWith_at (storedHandle h) = true.
Proof.
  unfold storedHandle. destruct (startsWith_at h) eqn:E; [exact E | reflexivity].
Qed.

Lemma normalizeHandle_lower (x : string) :
  toLowerCase (normalizeHandle x) = normalizeHandle x.
Proof. apply toLowerCase_idempotent. Qed.



Lemma storedHandle_lower (x : string) :
  toLowerCase (storedHandle (normalizeHandle x)) = storedHandle (normalizeHandle x).
Proof.
  unfold storedHandle. destruct (startsWith_at (normalizeHandle x)).
  - apply normalizeHandle_lower.
  - simpl. f_equal. apply normalizeHandle_lower.
Qed.



(** The history effect only writes [history]. *)
Lemma loadHistory_frame (s : State) :
  userData (loadHistory s) = userData s /\
  view (loadHistory s) = view s /\
  storage (loadHistory s) = storage s.
Proof.
  unfold loadHistory.
  destruct (truthy_string (handle (userData s))); [| repeat split; reflexivity].
  destruct (storage s) as [allData |] eqn:E; [| repeat split; congruence].
  destruct (ledger_get allData (handleKey (userData s)));
    repeat split; simpl; congruence.
Qed.

Lemma loadHistory_sets_history (s : State) :
  exists h, loadHistory s = setHistory h s.
Proof.
  assert (Hid : s = setHistory (history s) s) by (destruct s; reflexivity).
  unfold loadHistory.
  destruct (truthy_string (handle (userData s))); [| eauto].
  destruct (storage s) as [allData |]; [| eauto].
  destruct (ledger_get allData (handleKey (userData s))); eauto.
Qed.

Lemma afterRender_userData (old new : State) :
  userData (afterRender old new) = userData new.
Proof.
  unfold afterRender. destruct (String.eqb _ _); [reflexivity |].
  apply loadHistory_frame.
Qed.

Lemma afterRender_view (old new : State) :
  view (afterRender old new) = view new.
Proof.
  unfold afterRender. destruct (String.eqb _ _); [reflexivity |].
  apply loadHistory_frame.
Qed.

Lemma afterRender_storage (old new : State) :
  storage (afterRender old new) = storage new.
Proof.
  unfold afterRender. destruct (String.eqb _ _); [reflexivity |].
  apply loadHistory_frame.
Qed.

(** In the [CONTRIBUTE] view nothing touches [userData] or the view. *)
Lemma step_CONTRIBUTE (END : Z) (s t : State) :
  step END s t -> view s = CONTRIBUTE ->
  userData t = userData s /\ view t = CONTRIBUTE.
Proof.
  intros Hstep Hv.
  destruct Hstep as [v s Hview | v s Hview | s Hview | p s _ _ | s _ _ | v s _ _
                    | u n s _ _ | s _ _ | s _ | n s _ _];
    try congruence; try (split; [reflexivity | exact Hv]).
  - unfold submitTx.
    destruct (String.eqb (timeLeft s) "CLOSED"); [split; [reflexivity | exact Hv] |].
    destruct (negb (truthy_string (txHash s)) || (String.length (txHash s) <? 32)%nat);
      [split; [reflexivity | exact Hv] |].
    destruct (history s); split; solve [reflexivity | exact Hv].
  - unfold tick. destruct (END - n <? 0)%Z;
      (split; [reflexivity | exact Hv]).
Qed.





End HandleFacts.

(* ===================================================================== *)
(** ** The submission ledger *)
(* ===================================================================== *)

Module LedgerFacts.
Import JS PresaleScreen JSFacts Scenarios VerifyFacts HandleFacts.

(** The submission [submitTx] builds. *)
Lemma submitTx_accepted (uuid : string) (now : Z) (s : State) (old : list Submission) :
  String.eqb (timeLeft s) "CLOSED" = false ->
  (32 <= String.length (txHash s))%nat ->
  history s = Entries old ->
  let newSub :=
    {| sub_id := uuid; sub_missionId := "presale_contribution";
       sub_proofUrl := txHash s; sub_amount := amount s;
       sub_status := "PENDING"; sub_timestamp := now |} in
  notified TRANSMISSION_COMPLETE (submitTx uuid now s) /\
  history (submitTx uuid now s) = Entries (newSub :: old) /\
  storage (submitTx uuid now s)
  = Some (ledger_set (handleKey (userData s)) (newSub :: old)
            (match storage s with Some d => d | None => ∅ end)) /\
  txHash (submitTx uuid now s) = "".
Proof.
  intros Hopen Hlen Hold newSub. unfold submitTx, notified.
  rewrite Hopen.
  assert (Hcheck : negb (truthy_string (txHash s))
                   || (String.length (txHash s) <? 32)%nat = false).
  { destruct (txHash s); simpl in *; [lia |].
    apply Nat.ltb_ge. exact Hlen. }
  rewrite Hcheck, Hold. simpl. repeat split; reflexivity.
Qed.

Lemma submitTx_short_proof (s : State) :
  (String.length (txHash s) < 32)%nat ->
  negb (truthy_string (txHash s)) || (String.length (txHash s) <? 32)%nat = true.
Proof.
  intros H. apply orb_true_iff. right. now apply Nat.ltb_lt.
Qed.

(** A success notification means both checks passed. *)
Lemma submitTx_notified_inv (uuid : string) (now : Z) (s : State) :
  notified TRANSMISSION_COMPLETE (submitTx uuid now s) ->
  timeLeft s <> "CLOSED" /\ (32 <= String.length (txHash s))%nat.
Proof.
  unfold notified, submitTx.
  destruct (String.eqb_spec (timeLeft s) "CLOSED") as [Hc | Hc]; [discriminate |].
  destruct (Nat.ltb_spec (String.length (txHash s)) 32) as [Hl | Hl].
  - rewrite orb_true_r. discriminate.
  - intros _. split; assumption.
Qed.

(** C1, as stated, fails: monky_king (cap 10) pastes a 40-character proof,
    types 0 into the amount field and submits while the window is open.
    The append succeeds although 0 is below the minimum contribution
    0.01. *)
Lemma zero_amount_is_accepted :
  reachable 0 kingZero /\
  timeLeft kingZero <> "CLOSED" /\
  (32 <= String.length (txHash kingZero))%nat /\
  detectedCap kingZero = Num (10 # 1) /\
  amount kingZero = Num 0 /\
  ~ in_range MINIMUM_CONTRIBUTION (detectedCap kingZero) (amount kingZero) /\
  notified TRANSMISSION_COMPLETE (submitTx "id-1" 1 kingZero) /\
  (exists sub, history (submitTx "id-1" 1 kingZero) = Entries [sub] /\
               sub_amount sub = Num 0).
Proof.
  split.
  { unfold kingZero.
    eapply reachable_step; [| apply step_handleAmountChange; reflexivity].
    eapply reachable_step; [| apply step_setTxHash; reflexivity].
    unfold kingVerified, entered.
    eapply reachable_step; [| apply step_handleVerify; reflexivity].
    unfold filled.
    eapply reachable_step; [| apply step_setLoginWallet; reflexivity].
    eapply reachable_step; [| apply step_setLoginHandle; reflexivity].
    apply reachable_mount. }
  split; [vm_compute; discriminate |].
  split; [vm_compute; lia |].
  split; [vm_compute; reflexivity |].
  split; [vm_compute; reflexivity |].
  split.
  { vm_compute. intros [H _]. apply H. reflexivity. }
  split; [vm_compute; reflexivity |].
  eexists. split; vm_compute; reflexivity.
Qed.

(** C1 (amended).  For a state whose history is an array: the append
    succeeds and produces a submission iff the window is open and the proof
    reference has length at least 32.  A closed window is reported first,
    then an invalid proof.  The amount is not checked at append time: the
    submission records the amount state as it is, whatever its relation to
    the minimum contribution and to the cap. *)
Theorem submitTx_succeeds_iff (uuid : string) (now : Z) (s : State)
    (old : list Submission) :
  history s = Entries old ->
  (notified TRANSMISSION_COMPLETE (submitTx uuid now s) <->
     timeLeft s <> "CLOSED" /\ (32 <= String.length (txHash s))%nat) /\
  (notified TRANSMISSION_COMPLETE (submitTx uuid now s) ->
     exists newSub,
       history (submitTx uuid now s) = Entries (newSub :: old) /\
       sub_amount newSub = amount s /\
       sub_proofUrl newSub = txHash s /\
       sub_status newSub = "PENDING") /\
  (timeLeft s = "CLOSED" -> submitTx uuid now s = setNotification PHASE_END ERROR s) /\
  (timeLeft s <> "CLOSED" -> (String.length (txHash s) < 32)%nat ->
     submitTx uuid now s = setNotification HASH_INVALID ERROR s).
Proof.
  intros Hold.
  assert (Hiff : notified TRANSMISSION_COMPLETE (submitTx uuid now s) <->
                 timeLeft s <> "CLOSED" /\ (32 <= String.length (txHash s))%nat).
  { split.
    - apply submitTx_notified_inv.
    - intros [Hc Hl]. apply (submitTx_accepted uuid now s old); try assumption.
      now apply String.eqb_neq. }
  split; [exact Hiff |].
  split.
  { intros Hn. apply Hiff in Hn as [Hc Hl].
    apply String.eqb_neq in Hc.
    destruct (submitTx_accepted uuid now s old Hc Hl Hold) as (_ & Hh & _).
    eexists. split; [exact Hh |]. repeat split; reflexivity. }
  split.
  - intros Hc. unfold submitTx. rewrite Hc. reflexivity.
  - intros Hc Hl. unfold submitTx. apply String.eqb_neq in Hc.
    rewrite Hc, (submitTx_short_proof s Hl). reflexivity.
Qed.

(** monky_king's zero amount from the counterexample. *)
Lemma submitTx_succeeds_iff_witness :
  notified TRANSMISSION_COMPLETE (submitTx "id-1" 1 kingZero).
Proof.
  destruct (submitTx_succeeds_iff "id-1" 1 kingZero []) as [Hiff _];
    [reflexivity |].
  apply Hiff. split; [vm_compute; discriminate | vm_compute; lia].
Defined.

(** *** What an append writes *)

Lemma storedHandle_truthy (h : string) : truthy_string (storedHandle h) = true.
Proof.
  pose proof (storedHandle_startsWith_at h) as H.
  destruct (storedHandle h); [discriminate | reflexivity].
Qed.

(** Writing under a key other than [__proto__] is an insertion. *)
Lemma ledger_set_insert (k : string) (v : list Submission) (allData : LedgerData) :
  k <> "__proto__" -> ledger_set k v allData = <[k := v]> allData.
Proof.
  intros Hk. unfold ledger_set. apply String.eqb_neq in Hk. now rewrite Hk.
Qed.

(** X21.  Every append that reports success (the completion notice is
    shown and the proof field has been cleared, the last two statements of
    the handler), in a state whose history is an array and whose grouping
    key is not [__proto__]: the new submission is PENDING, carries the
    given id and instant, and is put in front of the in-memory history; the
    stored slice under the grouping key becomes exactly the new in-memory
    history; the slices under every other grouping key stay as they are.
    If the stored slice agreed with the in-memory history before, it grows
    by exactly one entry; and a fresh id keeps the ids distinct. *)
Lemma submitTx_appends (uuid : string) (now : Z) (s : State) (old : list Submission) :
  history s = Entries old ->
  handleKey (userData s) <> "__proto__" ->
  notified TRANSMISSION_COMPLETE (submitTx uuid now s) ->
  txHash (submitTx uuid now s) = "" ->
  let k := handleKey (userData s) in
  let newSub :=
    {| sub_id := uuid; sub_missionId := "presale_contribution";
       sub_proofUrl := txHash s; sub_amount := amount s;
       sub_status := "PENDING"; sub_timestamp := now |} in
  history (submitTx uuid now s) = Entries (newSub :: old) /\
  slice (submitTx uuid now s) k = Some (newSub :: old) /\
  (forall k', k' <> k -> slice (submitTx uuid now s) k' = slice s k') /\
  (entries_of (slice s k) = old ->
     length (entries_of (slice (submitTx uuid now s) k))
     = S (length (entries_of (slice s k)))) /\
  (uuid ∉ map sub_id old -> NoDup (map sub_id old) ->
     NoDup (map sub_id (newSub :: old))).
Proof.
  intros Hold Hk Hn _ k newSub.
  apply submitTx_notified_inv in Hn as [Hc Hl]. apply String.eqb_neq in Hc.
  destruct (submitTx_accepted uuid now s old Hc Hl Hold) as (_ & Hh & Hst & _).
  fold newSub in Hh, Hst. fold k in Hst.
  rewrite (ledger_set_insert k _ _ Hk) in Hst.
  split; [exact Hh |].
  assert (Hslice : slice (submitTx uuid now s) k = Some (newSub :: old)).
  { unfold slice. rewrite Hst. apply lookup_insert_eq. }
  split; [exact Hslice |].
  split; [| split].
  - intros k' Hne. unfold slice. rewrite Hst.
    rewrite lookup_insert_ne by congruence.
    destruct (storage s); [reflexivity | apply lookup_empty].
  - intros Hagree. rewrite Hslice, Hagree. reflexivity.
  - intros Hfresh Hnd. simpl. constructor; assumption.
Qed.

(** C8, at the failing input.  A first-time visitor verifies with the
    handle "@@__proto__" (an unknown handle, so the fallback cap applies),
    pastes a 40-character proof and submits.  The grouping key is
    "__proto__"; the append reports success and prepends the submission to
    the in-memory history, but what is written back is an object without
    own properties: the stored slice of the handle does not grow. *)
Theorem proto_key_append_is_not_persisted :
  reachable 0 protoReady /\
  view protoReady = CONTRIBUTE /\
  renders protoReady = true /\
  handle (userData protoReady) = "@__proto__" /\
  handleKey (userData protoReady) = "__proto__" /\
  history protoReady = Entries [] /\
  slice protoReady "__proto__" = None /\
  notified TRANSMISSION_COMPLETE (submitTx "id-1" 1 protoReady) /\
  (exists sub, history (submitTx "id-1" 1 protoReady) = Entries [sub] /\
               sub_status sub = "PENDING") /\
  storage (submitTx "id-1" 1 protoReady) = Some ∅ /\
  slice (submitTx "id-1" 1 protoReady) "__proto__" = None /\
  entries_of (slice (submitTx "id-1" 1 protoReady) "__proto__") = [].
Proof.
  split.
  { unfold protoReady.
    eapply reachable_step; [| apply step_setTxHash; reflexivity].
    unfold protoVerified, entered.
    eapply reachable_step; [| apply step_handleVerify; reflexivity].
    unfold filled.
    eapply reachable_step; [| apply step_setLoginWallet; reflexivity].
    eapply reachable_step; [| apply step_setLoginHandle; reflexivity].
    apply reachable_mount. }
  repeat split; try (vm_compute; reflexivity).
  eexists. split; vm_compute; reflexivity.
Qed.

(** The visitor who verified @@constructor while the session held
    monky_king's history: the append writes that history, with the new
    submission in front, under the key constructor, and leaves monky_king's
    slice alone. *)
Lemma submitTx_appends_example :
  history constructorAfterKing = Entries [earlier] /\
  slice constructorAfterKing "constructor" = None /\
  (exists sub,
     slice (submitTx "id-1" 1 (setTxHash proof40 constructorAfterKing)) "constructor"
     = Some [sub; earlier]) /\
  slice (submitTx "id-1" 1 (setTxHash proof40 constructorAfterKing)) "monky_king"
  = Some [earlier].
Proof.
  assert (Hk : handleKey (userData (setTxHash proof40 constructorAfterKing))
               <> "__proto__") by (vm_compute; discriminate).
  assert (Hh : history (setTxHash proof40 constructorAfterKing) = Entries [earlier])
    by (vm_compute; reflexivity).
  assert (Hn : notified TRANSMISSION_COMPLETE
                 (submitTx "id-1" 1 (setTxHash proof40 constructorAfterKing)))
    by (vm_compute; reflexivity).
  destruct (submitTx_appends "id-1" 1 _ [earlier] Hh Hk Hn eq_refl)
    as (_ & Hs & Hother & _).
  split; [vm_compute; reflexivity |].
  split; [vm_compute; reflexivity |].
  split.
  - eexists. exact Hs.
  - rewrite Hother; [vm_compute; reflexivity | vm_compute; discriminate].
Defined.

End LedgerFacts.

(* ===================================================================== *)
(** ** The access gate and the moderation queue *)
(* ===================================================================== *)

Module AdminFacts.
Import JS AdminScreen JSFacts.

Lemma is_PENDING_true (v : JsValue) :
  is_PENDING v = true <-> v = JString "PENDING".
Proof.
  destruct v; simpl; try (split; [discriminate | congruence]).
  rewrite String.eqb_eq. split; congruence.
Qed.

(** A row whose status field holds a non-empty text is judged by it. *)
Lemma status_or_PENDING_text (r : Row) (t : string) :
  prop r "status" = JString t -> t <> "" -> status_or_PENDING r = JString t.
Proof.
  intros H Ht. unfold status_or_PENDING. rewrite H. simpl.
  destruct t; [congruence | reflexivity].
Qed.

(** The status field of a row is the status field of its document. *)
Lemma row_of_status (d : Doc) :
  prop (row_of d) "status" = match doc_data d !! "status" with
                             | Some v => v
                             | None => JUndefined
                             end.
Proof.
  unfold prop, row_of. rewrite lookup_union.
  rewrite lookup_singleton_ne by discriminate.
  destruct (doc_data d !! "status"); reflexivity.
Qed.

(** The access gate is ALLOWED exactly when the queue effect subscribes. *)
Lemma accessState_ALLOWED (adminEmail : option string) (s : State) :
  accessState adminEmail s = AUTHENTICATED_ALLOWED <->
  authReady s = true /\ isAllowed adminEmail (authUser s) = true.
Proof.
  unfold accessState.
  destruct (authReady s); simpl; [| split; [discriminate | intros [? _]; discriminate]].
  destruct (authUser s) as [u |] eqn:Hu.
  - destruct (isAllowed adminEmail (Some u)); simpl; split;
      solve [auto | discriminate | intros [_ ?]; discriminate].
  - simpl. split; [discriminate | intros [_ ?]; discriminate].
Qed.

Lemma isAllowed_true (adminEmail : option string) (u : option User) :
  isAllowed adminEmail u = true <->
  exists u' e a,
    u = Some u' /\ email u' = Some e /\ adminEmail = Some a /\
    e <> "" /\ a <> "" /\ toLowerCase e = toLowerCase a.
Proof.
  unfold isAllowed. split.
  - destruct u as [u' |]; [| discriminate].
    destruct (email u') as [e |] eqn:He; [| discriminate].
    destruct (truthy_string e) eqn:Hte; [| discriminate].
    destruct adminEmail as [a |]; [| discriminate].
    destruct (truthy_string a) eqn:Hta; [| discriminate].
    intros H. apply String.eqb_eq in H.
    apply truthy_string_true in Hte, Hta.
    exists u', e, a. repeat split; assumption.
  - intros (u' & e & a & -> & -> & -> & He & Ha & Heq).
    apply truthy_string_true in He, Ha. rewrite He, Ha.
    now apply String.eqb_eq.
Qed.

(** *** The gate invariant *)

Lemma gated_queueEffect (adminEmail : option string) (s : State) :
  gated adminEmail (queueEffect adminEmail (cleanup s)).
Proof.
  unfold queueEffect, cleanup, gated. simpl.
  destruct (authReady s) eqn:Hr; simpl.
  - destruct (isAllowed adminEmail (authUser s)) eqn:Ha; simpl; rewrite Hr, Ha;
      split; solve [auto | discriminate].
  - rewrite Hr. split; [discriminate | reflexivity].
Qed.

Lemma gated_afterRender (adminEmail : option string) (old new : State) :
  listening new = listening old -> applications new = applications old ->
  gated adminEmail old -> gated adminEmail (afterRender adminEmail old new).
Proof.
  intros Hl Ha Hold. unfold afterRender.
  destruct (Bool.eqb (authReady old) (authReady new)) eqn:E1; simpl;
    [| apply gated_queueEffect].
  destruct (Bool.eqb (isAllowed adminEmail (authUser old))
                     (isAllowed adminEmail (authUser new))) eqn:E2;
    [| apply gated_queueEffect].
  apply Bool.eqb_prop in E1. apply Bool.eqb_prop in E2.
  unfold gated in *. rewrite Hl, Ha, <- E1, <- E2. exact Hold.
Qed.

Lemma gated_frame (adminEmail : option string) (s t : State) :
  authUser t = authUser s -> authReady t = authReady s ->
  applications t = applications s -> listening t = listening s ->
  gated adminEmail s -> gated adminEmail t.
Proof.
  intros Hu Hr Ha Hl. unfold gated. now rewrite Hu, Hr, Ha, Hl.
Qed.

Lemma gated_step (adminEmail : option string) (s t : State) :
  step adminEmail s t -> gated adminEmail s -> gated adminEmail t.
Proof.
  intros Hstep Hs.
  destruct Hstep as [u s | u s | s | docs s Hl | err s Hl | s _ | st o s | s].
  - now apply gated_afterRender.
  - now apply gated_afterRender.
  - now apply gated_afterRender.
  - destruct Hs as [Hlisten _]. destruct (Hlisten Hl) as [Hr Ha].
    unfold gated, onSnapshotNext. simpl. rewrite Hr, Ha.
    split; [auto | discriminate].
  - unfold gated, onSnapshotError. simpl. split; [discriminate | reflexivity].
  - revert Hs. apply gated_frame; reflexivity.
  - revert Hs. apply gated_frame; destruct o as [e |]; try destruct st; reflexivity.
  - revert Hs. apply gated_frame; reflexivity.
Qed.

Lemma reachable_gated (adminEmail : option string) (s : State) :
  reachable adminEmail s -> gated adminEmail s.
Proof.
  induction 1 as [| s t _ IH Hstep].
  - unfold mount. split; [discriminate | reflexivity].
  - exact (gated_step _ _ _ Hstep IH).
Qed.

(** Outside the ALLOWED state: no listener, no data, nothing on screen. *)
Lemma reachable_shut (adminEmail : option string) (s : State) :
  reachable adminEmail s ->
  accessState adminEmail s <> AUTHENTICATED_ALLOWED ->
  listening s = false /\ applications s = [] /\ presentedQueue adminEmail s = [].
Proof.
  intros Hreach Hna. destruct (reachable_gated _ _ Hreach) as [Hlisten Hshut].
  assert (Hoff : authReady s && isAllowed adminEmail (authUser s) = false).
  { destruct (authReady s) eqn:Hr, (isAllowed adminEmail (authUser s)) eqn:Ha;
      try reflexivity.
    exfalso. apply Hna. apply accessState_ALLOWED. auto. }
  split; [| split].
  - destruct (listening s); [| reflexivity].
    destruct (Hlisten eq_refl) as [Hr Ha]. rewrite Hr, Ha in Hoff. discriminate.
  - auto.
  - unfold presentedQueue, render.
    destruct (authReady s) eqn:Hr; [| reflexivity].
    rewrite andb_true_l in Hoff. rewrite Hoff.
    destruct (authUser s); reflexivity.
Qed.

(** *** The claims about the queue *)

(** C4.  On every delivery of a snapshot the queue becomes, and the queue
    screen presents, exactly the rows of the delivered window whose status
    is PENDING, in the order of the window, a row without a status (or with
    an empty one) counting as PENDING the way the component displays it:
    the queue holds no APPROVED and no REJECTED row and omits no PENDING
    row of the window. *)
Theorem onSnapshotNext_pending_exactly (adminEmail : option string)
    (docs : list Doc) (s : State) :
  let window := map row_of docs in
  let queue := applications (onSnapshotNext docs s) in
  queue = List.filter (fun r => is_PENDING (status_or_PENDING r)) window /\
  (accessState adminEmail s = AUTHENTICATED_ALLOWED ->
     presentedQueue adminEmail (onSnapshotNext docs s) = queue) /\
  (forall r, In r queue <->
             In r window /\ status_or_PENDING r = JString "PENDING") /\
  (forall r, In r queue ->
             prop r "status" <> JString "APPROVED" /\
             prop r "status" <> JString "REJECTED") /\
  (forall r, In r window -> prop r "status" = JString "PENDING" -> In r queue) /\
  (forall d, In d docs -> doc_data d !! "status" = Some (JString "PENDING") ->
             In (row_of d) queue).
Proof.
  intros window queue.
  assert (Hq : queue = List.filter (fun r => is_PENDING (status_or_PENDING r)) window)
    by reflexivity.
  assert (Hin : forall r, In r queue <->
                  In r window /\ status_or_PENDING r = JString "PENDING").
  { intros r. rewrite Hq, filter_In, is_PENDING_true. reflexivity. }
  assert (Hraw : forall r, In r window ->
                   prop r "status" = JString "PENDING" -> In r queue).
  { intros r Hw Hst. apply Hin. split; [exact Hw |].
    apply status_or_PENDING_text; [exact Hst | discriminate]. }
  split; [exact Hq |].
  split.
  { intros Hal. apply accessState_ALLOWED in Hal as [Hr Ha].
    unfold presentedQueue, render.
    change (authReady (onSnapshotNext docs s)) with (authReady s).
    change (authUser (onSnapshotNext docs s)) with (authUser s).
    rewrite Hr, Ha.
    destruct (authUser s); [reflexivity | discriminate]. }
  split; [exact Hin |]. split; [| split; [exact Hraw |]].
  - intros r Hr. apply Hin in Hr as [_ Hst].
    split; intros Hbad;
      rewrite (status_or_PENDING_text r _ Hbad) in Hst by discriminate;
      discriminate.
  - intros d Hd Hst. apply Hraw.
    + unfold window. now apply in_map.
    + rewrite row_of_status, Hst. reflexivity.
Qed.

(** The snapshot of four applications: the pending one and the one without
    a status are presented. *)
Lemma onSnapshotNext_pending_exactly_witness :
  map (fun r => prop r "id") (applications AdminScenarios.moderating)
  = [JString "a1"; JString "a3"] /\
  In (row_of (AdminScenarios.application "a1"
                [("twitterName", JString "ape"); ("status", JString "PENDING")]))
     (applications AdminScenarios.moderating).
Proof.
  destruct (onSnapshotNext_pending_exactly AdminScenarios.configuredEmail
              AdminScenarios.snapshot
              (AdminScenarios.signedIn AdminScenarios.configuredEmail
                 AdminScenarios.moderator))
    as (Hq & _ & _ & _ & _ & Hdoc).
  split.
  - unfold AdminScenarios.moderating. rewrite Hq. vm_compute. reflexivity.
  - apply Hdoc; [left; reflexivity | vm_compute; reflexivity].
Defined.

(** C5.  In every reachable state the snapshot listener exists only in the
    AUTHENTICATED_ALLOWED state, which is the state of a resolved session
    whose non-empty email equals the non-empty configured email up to
    letter case; in the three other states there is no listener, the
    component holds no queue data and none is presented. *)
Theorem subscription_gated (adminEmail : option string) (s : State) :
  reachable adminEmail s ->
  (listening s = true -> accessState adminEmail s = AUTHENTICATED_ALLOWED) /\
  (accessState adminEmail s <> AUTHENTICATED_ALLOWED ->
     listening s = false /\ applications s = [] /\
     presentedQueue adminEmail s = []) /\
  (accessState adminEmail s = AUTHENTICATED_ALLOWED <->
     authReady s = true /\
     exists u e a,
       authUser s = Some u /\ email u = Some e /\ adminEmail = Some a /\
       e <> "" /\ a <> "" /\ toLowerCase e = toLowerCase a).
Proof.
  intros Hreach. destruct (reachable_gated _ _ Hreach) as [Hlisten _].
  split; [| split].
  - intros Hl. apply accessState_ALLOWED. auto.
  - now apply reachable_shut.
  - rewrite accessState_ALLOWED, isAllowed_true. reflexivity.
Qed.

(** The moderator is let in and listens; a visitor is not and does not. *)
Lemma subscription_gated_witness :
  accessState AdminScenarios.configuredEmail
    (AdminScenarios.signedIn AdminScenarios.configuredEmail AdminScenarios.moderator)
  = AUTHENTICATED_ALLOWED /\
  listening
    (AdminScenarios.signedIn AdminScenarios.configuredEmail AdminScenarios.visitor)
  = false.
Proof.
  assert (Hreach : forall u,
            reachable AdminScenarios.configuredEmail
              (AdminScenarios.signedIn AdminScenarios.configuredEmail u)).
  { intros u. eapply reachable_step; [apply reachable_mount |].
    apply step_onAuthStateChanged. }
  destruct (subscription_gated _ _ (Hreach AdminScenarios.moderator))
    as (Hlisten & _ & _).
  destruct (subscription_gated _ _ (Hreach AdminScenarios.visitor))
    as (_ & Hshut & _).
  split.
  - apply Hlisten. reflexivity.
  - apply Hshut. vm_compute. discriminate.
Defined.

(** C9.  When the error callback of the subscription runs, the queue
    becomes empty, whatever had been delivered before, and the failure
    description (the message of the error, or the default text when there
    is none) becomes the action error, which the queue screen shows. *)
Theorem onSnapshotError_clears (adminEmail : option string)
    (err : option JsError) (s : State) :
  applications (onSnapshotError err s) = [] /\
  presentedQueue adminEmail (onSnapshotError err s) = [] /\
  actionError (onSnapshotError err s)
  = Some (message_or err "FIRESTORE_SUBSCRIBE_FAILED") /\
  message_or err "FIRESTORE_SUBSCRIBE_FAILED" <> "" /\
  (forall e, err = Some e -> err_message e <> "" ->
             actionError (onSnapshotError err s) = Some (err_message e)) /\
  (accessState adminEmail s = AUTHENTICATED_ALLOWED ->
     render adminEmail (onSnapshotError err s)
     = QUEUE (Some (message_or err "FIRESTORE_SUBSCRIBE_FAILED")) (toast s) []).
Proof.
  split; [reflexivity |]. split.
  { unfold presentedQueue, render, onSnapshotError. simpl.
    destruct (authReady s); simpl; [| reflexivity].
    destruct (authUser s); [| reflexivity].
    destruct (isAllowed adminEmail (Some u)); reflexivity. }
  split; [reflexivity |]. split.
  { unfold message_or, string_or. destruct err as [e |]; [| discriminate].
    destruct (truthy_string (err_message e)) eqn:E; [| discriminate].
    now apply truthy_string_true. }
  split.
  - intros e -> He. apply truthy_string_true in He.
    unfold onSnapshotError, message_or, string_or. simpl. now rewrite He.
  - intros Hal. apply accessState_ALLOWED in Hal as [Hr Ha].
    unfold render.
    change (authReady (onSnapshotError err s)) with (authReady s).
    change (authUser (onSnapshotError err s)) with (authUser s).
    rewrite Hr, Ha.
    destruct (authUser s) as [u |]; [reflexivity | discriminate].
Qed.

(** A permission error arrives while the moderator looks at two rows. *)
Lemma onSnapshotError_clears_witness :
  length (applications AdminScenarios.moderating) = 2%nat /\
  render AdminScenarios.configuredEmail
    (onSnapshotError (Some {| err_message := "permission-denied" |})
       AdminScenarios.moderating)
  = QUEUE (Some "permission-denied") None [].
Proof.
  split; [vm_compute; reflexivity |].
  destruct (onSnapshotError_clears AdminScenarios.configuredEmail
              (Some {| err_message := "permission-denied" |})
              AdminScenarios.moderating)
    as (_ & _ & _ & _ & _ & Hrender).
  rewrite Hrender; reflexivity.
Defined.

(** C10.  If no authorized email is configured (absent or empty), the
    access check is false for every session user, with or without an
    email; no state is AUTHENTICATED_ALLOWED, and in every reachable state
    there is no snapshot listener and no queue data. *)
Theorem no_configured_email_denies_all (adminEmail : option string) :
  adminEmail = None \/ adminEmail = Some "" ->
  (forall u, isAllowed adminEmail u = false) /\
  (forall s, accessState adminEmail s <> AUTHENTICATED_ALLOWED) /\
  (forall s, reachable adminEmail s ->
             listening s = false /\ applications s = [] /\
             presentedQueue adminEmail s = []).
Proof.
  intros Hcfg.
  assert (Hdeny : forall u, isAllowed adminEmail u = false).
  { intros u. unfold isAllowed.
    destruct u as [u' |]; [| reflexivity].
    destruct (email u') as [e |]; [| reflexivity].
    destruct (negb (truthy_string e)); [reflexivity |].
    destruct Hcfg as [-> | ->]; reflexivity. }
  assert (Hstate : forall s, accessState adminEmail s <> AUTHENTICATED_ALLOWED).
  { intros s H. apply accessState_ALLOWED in H as [_ H].
    rewrite Hdeny in H. discriminate. }
  split; [exact Hdeny |]. split; [exact Hstate |].
  intros s Hreach.
  apply (reachable_shut adminEmail s Hreach). apply Hstate.
Qed.

(** Without a configured email even the moderator is kept out. *)
Lemma no_configured_email_denies_all_witness :
  isAllowed None (Some AdminScenarios.moderator) = false /\
  listening (AdminScenarios.signedIn None AdminScenarios.moderator) = false.
Proof.
  destruct (no_configured_email_denies_all None) as (Hdeny & _ & Hreach);
    [left; reflexivity |].
  split; [apply Hdeny |].
  apply Hreach.
  eapply reachable_step; [apply reachable_mount |].
  apply step_onAuthStateChanged.
Defined.

End AdminFacts.

(* ===================================================================== *)
(** ** More on normalization and verification *)
(* ===================================================================== *)

Module NormalizeFacts.
Import JS PresaleScreen JSFacts VerifyFacts HandleFacts.

Lemma replace_at_lower (s : string) :
  replace_at (toLowerCase s) = toLowerCase (replace_at s).
Proof.
  induction s as [| c r IH]; simpl; [reflexivity |].
  rewrite to_lower_char_at. destruct (Ascii.eqb c at_sign); simpl; congruence.
Qed.

Lemma trimStart_lower (s : string) :
  trimStart (toLowerCase s) = toLowerCase (trimStart s).
Proof.
  induction s as [| c r IH]; simpl; [reflexivity |].
  rewrite to_lower_char_space. destruct (is_space c); [exact IH | reflexivity].
Qed.

Lemma trimEnd_lower (s : string) :
  trimEnd (toLowerCase s) = toLowerCase (trimEnd s).
Proof.
  induction s as [| c r IH]; simpl; [reflexivity |].
  rewrite IH, to_lower_char_space.
  destruct (trimEnd r); simpl; [destruct (is_space c) |]; reflexivity.
Qed.

Lemma trim_lower (s : string) : trim (toLowerCase s) = toLowerCase (trim s).
Proof. unfold trim. now rewrite trimStart_lower, trimEnd_lower. Qed.

Lemma trimStart_fixed (s : string) :
  (forall c, first_char s = Some c -> is_space c = false) -> trimStart s = s.
Proof.
  destruct s as [| a r]; simpl; [reflexivity |].
  intros H. now rewrite (H a eq_refl).
Qed.

Lemma trimEnd_fixed (s : string) :
  (forall c, last_char s = Some c -> is_space c = false) -> trimEnd s = s.
Proof.
  induction s as [| a r IH]; [reflexivity |].
  intros H. simpl. destruct r as [| b t].
  - simpl. now rewrite (H a eq_refl).
  - rewrite IH by exact H. reflexivity.
Qed.

Lemma trim_idempotent (s : string) : trim (trim s) = trim s.
Proof.
  unfold trim at 1.
  rewrite trimStart_fixed by apply trim_first_char.
  apply trimEnd_fixed, trim_last_char.
Qed.

(** Normalization with the lowercasing done first. *)
Lemma normalizeHandle_lower_first (x : string) :
  normalizeHandle x = trim (replace_at (toLowerCase x)).
Proof. unfold normalizeHandle. now rewrite replace_at_lower, trim_lower. Qed.

Lemma normalizeHandle_trimmed (x : string) :
  trim (normalizeHandle x) = normalizeHandle x.
Proof. unfold normalizeHandle. now rewrite trim_lower, trim_idempotent. Qed.

(** Every commit of the allocation table is a number other than 0. *)
Lemma table_commit_truthy (h w : string) (c : number) :
  MOCK_JUNGLE_DB !! h = Some (w, c) -> truthy_number c = true.
Proof.
  revert h w c.
  assert (H : map_Forall (fun _ (e : string * number) => truthy_number (snd e) = true)
                MOCK_JUNGLE_DB).
  { unfold MOCK_JUNGLE_DB. simpl.
    repeat (apply map_Forall_insert_2; [reflexivity |]).
    apply map_Forall_empty. }
  intros h w c Hl. exact (H h (w, c) Hl).
Qed.

Lemma truthy_number_not_NaN (n : number) :
  truthy_number n = true -> isNaN n = false.
Proof. destruct n; [discriminate | reflexivity]. Qed.

(** How a successful verify came by its cap. *)
Lemma handleVerify_success_cap (s : State) (h : string) (cap : number) :
  notified (UPLINK_STABLE h cap) (handleVerify s) ->
  SOLANA_ADDRESS_REGEX_test (trim (loginWallet s)) = true /\
  truthy_number cap = true /\
  (MOCK_JUNGLE_DB_get h = Own (trim (loginWallet s)) cap \/
   (MOCK_JUNGLE_DB_get h = Absent /\
    cap = number_or (actualCommit (userData s)) DEFAULT_CAP)).
Proof.
  intros Hn. destruct (handleVerify_success _ _ _ Hn) as (-> & _ & _).
  revert Hn. unfold notified, handleVerify.
  destruct (truthy_string (normalizeHandle (loginHandle s))); simpl; [| discriminate].
  destruct (truthy_string (trim (loginWallet s))); simpl; [| discriminate].
  destruct (SOLANA_ADDRESS_REGEX_test (trim (loginWallet s))); simpl; [| discriminate].
  unfold MOCK_JUNGLE_DB_get.
  destruct (MOCK_JUNGLE_DB !! normalizeHandle (loginHandle s)) as [[rw rc] |] eqn:Hdb.
  - destruct (String.eqb_spec rw (trim (loginWallet s))) as [-> | Hne]; simpl;
      [| discriminate].
    intros [= <-]. split; [reflexivity |].
    split; [exact (table_commit_truthy _ _ _ Hdb) | now left].
  - destruct (inherited_name (normalizeHandle (loginHandle s))); simpl; [discriminate |].
    intros [= <-]. split; [reflexivity |].
    split; [apply number_or_truthy; reflexivity | now right].
Qed.


(** *** Grouping keys and inherited names *)

Lemma handleKey_lower (ud : UserData) :
  toLowerCase (handleKey ud) = handleKey ud.
Proof.
  unfold handleKey. rewrite replace_at_lower. apply toLowerCase_idempotent.
Qed.

(** A grouping key is in lower case: of the names an object inherits it
    can only be [constructor] or [__proto__], so a read of the ledger
    meets no other built-in. *)
Lemma handleKey_inherited (ud : UserData) :
  inherited_name (handleKey ud) = true ->
  handleKey ud = "constructor" \/ handleKey ud = "__proto__".
Proof.
  pose proof (handleKey_lower ud) as Hlow.
  unfold inherited_name, Object_prototype_names. simpl.
  repeat match goal with
         | |- context [String.eqb (handleKey ud) ?n] =>
             destruct (String.eqb_spec (handleKey ud) n) as [E | _];
             [ first [ now left | now right
                     | rewrite E in Hlow; vm_compute in Hlow; discriminate ] |]
         end.
  discriminate.
Qed.

End NormalizeFacts.

Module VerifyMore.
Import JS PresaleScreen JSFacts Scenarios VerifyFacts HandleFacts NormalizeFacts.

(** Every wallet of the allocation table matches the address grammar. *)
Lemma table_wallet_regex (h w : string) (c : number) :
  MOCK_JUNGLE_DB !! h = Some (w, c) -> SOLANA_ADDRESS_REGEX_test w = true.
Proof.
  revert h w c.
  assert (H : map_Forall
                (fun _ (e : string * number) => SOLANA_ADDRESS_REGEX_test (fst e) = true)
                MOCK_JUNGLE_DB).
  { unfold MOCK_JUNGLE_DB. simpl.
    repeat (apply map_Forall_insert_2; [reflexivity |]).
    apply map_Forall_empty. }
  intros h w c Hl. exact (H h (w, c) Hl).
Qed.

(** X1.  A handle of the allocation table entered with its recorded wallet
    (surrounding white space aside) verifies, and the cap resolved is the
    commit of the table, whatever cap the session carried before; the cap
    becomes the amount, the detected cap and the session's actual
    commit. *)
Theorem handleVerify_known_matching (s : State) (recorded : string) (commit : number) :
  MOCK_JUNGLE_DB !! normalizeHandle (loginHandle s) = Some (recorded, commit) ->
  trim (loginWallet s) = recorded ->
  notified (UPLINK_STABLE (normalizeHandle (loginHandle s)) commit) (handleVerify s) /\
  view (handleVerify s) = CONTRIBUTE /\
  detectedCap (handleVerify s) = commit /\
  amount (handleVerify s) = commit /\
  userData (handleVerify s)
  = {| handle := storedHandle (normalizeHandle (loginHandle s));
       wallet := recorded;
       actualCommit := Some commit |}.
Proof.
  intros Hdb Hw.
  pose proof (own_entry_truthy _ _ _ Hdb) as Hh.
  pose proof (table_wallet_regex _ _ _ Hdb) as Hr.
  assert (E : handleVerify s
              = verified (normalizeHandle (loginHandle s)) recorded commit s).
  { unfold handleVerify, MOCK_JUNGLE_DB_get.
    rewrite Hh, Hw, (regex_truthy _ Hr), Hr, Hdb, String.eqb_refl. reflexivity. }
  rewrite E. repeat split; reflexivity.
Qed.

(** sol_surfer, written with capitals and spaces, in a session that
    carried monky_king's cap. *)
Lemma handleVerify_known_matching_witness :
  detectedCap
    (handleVerify
       (filled " @Sol_Surfer" " Surf222222222222222222222222222222222222 "
          (userData kingVerified) None))
  = Num (25 # 10).
Proof.
  apply (handleVerify_known_matching
           (filled " @Sol_Surfer" " Surf222222222222222222222222222222222222 "
              (userData kingVerified) None)
           "Surf222222222222222222222222222222222222" (Num (25 # 10)));
    vm_compute; reflexivity.
Defined.

(** The tests of [handleVerify], one case each. *)
Lemma handleVerify_cases (s : State) :
  let h := normalizeHandle (loginHandle s) in
  let w := trim (loginWallet s) in
  let mismatch :=
    (exists recorded commit,
       MOCK_JUNGLE_DB !! h = Some (recorded, commit) /\ recorded <> w) \/
    (MOCK_JUNGLE_DB !! h = None /\ inherited_name h = true) in
  ((h = "" \/ w = "") /\
   handleVerify s = setNotification CREDENTIALS_MISSING ERROR s) \/
  (h <> "" /\ w <> "" /\ SOLANA_ADDRESS_REGEX_test w = false /\
   handleVerify s = setNotification FORMAT_ERROR ERROR s) \/
  (h <> "" /\ w <> "" /\ SOLANA_ADDRESS_REGEX_test w = true /\ mismatch /\
   handleVerify s = setNotification SECURITY_WARNING ERROR s) \/
  (h <> "" /\ w <> "" /\ SOLANA_ADDRESS_REGEX_test w = true /\ ~ mismatch /\
   exists cap, handleVerify s = verified h w cap s).
Proof.
  intros h w mismatch. unfold handleVerify, MOCK_JUNGLE_DB_get. fold h w.
  destruct (truthy_string h) eqn:Hh; simpl.
  2: { left. split; [| reflexivity]. left. destruct h; [reflexivity | discriminate]. }
  destruct (truthy_string w) eqn:Hw; simpl.
  2: { left. split; [| reflexivity]. right. destruct w; [reflexivity | discriminate]. }
  apply truthy_string_true in Hh, Hw.
  destruct (SOLANA_ADDRESS_REGEX_test w) eqn:Hr; simpl.
  2: { right. left. auto. }
  right. right.
  destruct (MOCK_JUNGLE_DB !! h) as [[rw rc] |] eqn:Hdb.
  - destruct (String.eqb_spec rw w) as [Heq | Hne]; simpl.
    + right. repeat split; try assumption; [| eexists; reflexivity].
      intros [(r & c & [= <- <-] & Hd) | [? _]]; [congruence | discriminate].
    + left. repeat split; try assumption. left. exists rw, rc. auto.
  - destruct (inherited_name h) eqn:Hin; simpl.
    + left. repeat split; try assumption. right. auto.
    + right. repeat split; try assumption; [| eexists; reflexivity].
      intros [(r & c & ? & _) | [_ ?]]; discriminate.
Qed.

Lemma regex_nonempty (w : string) :
  SOLANA_ADDRESS_REGEX_test w = true -> w <> "".
Proof. destruct w; [discriminate | discriminate]. Qed.

(** X2.  The failures of verify, in the order the handler tests them: the
    credentials are missing iff the normalized handle or the trimmed wallet
    is empty; the format error is reported iff both are non-empty and the
    trimmed wallet does not match the address grammar; the wallet mismatch
    iff the handle is non-empty, the wallet matches the grammar and the
    handle is either a table entry with another wallet or a name inherited
    from [Object.prototype].  A failed verify changes nothing but the
    notification: the state after it is the state before it with the error
    put in the notification, every other field as it was. *)
Theorem handleVerify_failures (s : State) :
  let h := normalizeHandle (loginHandle s) in
  let w := trim (loginWallet s) in
  (notified CREDENTIALS_MISSING (handleVerify s) <-> h = "" \/ w = "") /\
  (notified FORMAT_ERROR (handleVerify s) <->
     h <> "" /\ w <> "" /\ SOLANA_ADDRESS_REGEX_test w = false) /\
  (notified SECURITY_WARNING (handleVerify s) <->
     h <> "" /\ SOLANA_ADDRESS_REGEX_test w = true /\
     ((exists recorded commit,
         MOCK_JUNGLE_DB !! h = Some (recorded, commit) /\ recorded <> w) \/
      (MOCK_JUNGLE_DB !! h = None /\ inherited_name h = true))) /\
  (type <$> notification (handleVerify s) = Some ERROR ->
     userData (handleVerify s) = userData s /\
     detectedCap (handleVerify s) = detectedCap s /\
     amount (handleVerify s) = amount s /\
     view (handleVerify s) = view s /\
     history (handleVerify s) = history s /\
     storage (handleVerify s) = storage s /\
     loginHandle (handleVerify s) = loginHandle s /\
     loginWallet (handleVerify s) = loginWallet s /\
     txHash (handleVerify s) = txHash s /\
     timeLeft (handleVerify s) = timeLeft s /\
     timerActive (handleVerify s) = timerActive s /\
     exists m, handleVerify s = setNotification m ERROR s).
Proof.
  intros h w.
  pose proof (regex_nonempty w) as Hne.
  destruct (handleVerify_cases s)
    as [[Hc E] | [(Hh & Hw & Hr & E) | [(Hh & Hw & Hr & Hm & E)
                                        | (Hh & Hw & Hr & Hm & cap & E)]]];
    fold h w in Hc || fold h w in Hh, Hw, Hr; rewrite E; unfold notified; simpl.
  - split; [split; [auto | reflexivity] |].
    split; [split; [discriminate | intros (? & ? & _); destruct Hc; contradiction] |].
    split; [| intros _; repeat split; try reflexivity; eexists; reflexivity].
    split; [discriminate |].
    intros (? & Hr & _). apply Hne in Hr. destruct Hc; contradiction.
  - split; [split; [discriminate | intros [? | ?]; contradiction] |].
    split; [split; [auto | reflexivity] |].
    split; [| intros _; repeat split; try reflexivity; eexists; reflexivity].
    split; [discriminate | intros (_ & ? & _); congruence].
  - fold h w in Hm.
    split; [split; [discriminate | intros [? | ?]; contradiction] |].
    split; [split; [discriminate | intros (_ & _ & ?); congruence] |].
    split; [| intros _; repeat split; try reflexivity; eexists; reflexivity].
    split; [auto | reflexivity].
  - fold h w in Hm.
    split; [split; [discriminate | intros [? | ?]; contradiction] |].
    split; [split; [discriminate | intros (_ & _ & ?); congruence] |].
    split; [| discriminate].
    split; [discriminate | intros (_ & _ & ?); contradiction].
Qed.

(** X3.  Verification does not see the letter case of the handle: two
    handle inputs that agree up to case normalize to the same handle, and
    entering one instead of the other gives the same notification, the
    same session identity and the same cap.  (Handles are texts over
    U+0000 to U+00FF; there lowercasing maps each character by itself and
    changes neither a marker nor white space.) *)
Theorem handleVerify_ignores_case (s : State) (y : string) :
  toLowerCase (loginHandle s) = toLowerCase y ->
  normalizeHandle y = normalizeHandle (loginHandle s) /\
  notification (handleVerify (setLoginHandle y s)) = notification (handleVerify s) /\
  userData (handleVerify (setLoginHandle y s)) = userData (handleVerify s) /\
  detectedCap (handleVerify (setLoginHandle y s)) = detectedCap (handleVerify s) /\
  view (handleVerify (setLoginHandle y s)) = view (handleVerify s).
Proof.
  intros Hcase.
  assert (Hn : normalizeHandle y = normalizeHandle (loginHandle s)).
  { rewrite !normalizeHandle_lower_first. now rewrite Hcase. }
  split; [exact Hn |].
  unfold handleVerify.
  change (loginHandle (setLoginHandle y s)) with y.
  change (loginWallet (setLoginHandle y s)) with (loginWallet s).
  change (userData (setLoginHandle y s)) with (userData s).
  rewrite Hn.
  destruct (negb (truthy_string (normalizeHandle (loginHandle s)))
            || negb (truthy_string (trim (loginWallet s))));
    [repeat split; reflexivity |].
  destruct (negb (SOLANA_ADDRESS_REGEX_test (trim (loginWallet s))));
    [repeat split; reflexivity |].
  destruct (MOCK_JUNGLE_DB_get (normalizeHandle (loginHandle s))) as [rw rc | |];
    [destruct (negb (String.eqb rw (trim (loginWallet s)))) | |];
    repeat split; reflexivity.
Qed.

(** MONKY_KING is monky_king. *)
Lemma handleVerify_ignores_case_witness :
  userData (handleVerify (filled "MONKY_KING" kingWallet freshUser None))
  = userData kingVerified.
Proof.
  destruct (handleVerify_ignores_case
              (filled "monky_king" kingWallet freshUser None) "MONKY_KING")
    as (_ & _ & Hu & _); [reflexivity |].
  exact Hu.
Defined.

(** The mounted component shows the stored identity in the login form. *)
Lemma mount_login_fields (ud : UserData) (st : option LedgerData) :
  loginHandle (mount ud st) = handle ud /\
  loginWallet (mount ud st) = wallet ud /\
  userData (mount ud st) = ud.
Proof.
  assert (Hs : forall x, string_or x "" = x) by (intros [|]; reflexivity).
  unfold mount.
  destruct (loadHistory_sets_history (initialState ud st)) as [h ->].
  simpl. rewrite !Hs. repeat split; reflexivity.
Qed.

(** X4.  Verifying again with what the login form is prefilled with after
    a remount changes nothing: when a verify succeeded for a handle that
    does not itself begin with the marker, the component mounted with the
    resulting user data shows the stored handle and wallet, and verifying
    them succeeds with the same handle, the same cap and the same session
    identity. *)
Theorem reverify_same_identity (s : State) (h : string) (cap : number)
    (st : option LedgerData) :
  notified (UPLINK_STABLE h cap) (handleVerify s) ->
  startsWith_at h = false ->
  let again := mount (userData (handleVerify s)) st in
  loginHandle again = handle (userData (handleVerify s)) /\
  loginWallet again = wallet (userData (handleVerify s)) /\
  notified (UPLINK_STABLE h cap) (handleVerify again) /\
  userData (handleVerify again) = userData (handleVerify s) /\
  detectedCap (handleVerify again) = cap.
Proof.
  intros Hn Hat again.
  destruct (handleVerify_success _ _ _ Hn) as (Hh & E & Htruthy).
  destruct (handleVerify_success_cap _ _ _ Hn) as (Hr & Hcap & Hdb).
  destruct (mount_login_fields (userData (handleVerify s)) st) as (Hlh & Hlw & Hud).
  fold again in Hlh, Hlw, Hud.
  split; [exact Hlh |]. split; [exact Hlw |].
  assert (Hh2 : normalizeHandle (loginHandle again) = h).
  { rewrite Hlh, E. simpl. unfold storedHandle. rewrite Hat.
    unfold normalizeHandle at 1. rewrite replace_at_cons_at.
    rewrite Hh, normalizeHandle_trimmed. apply normalizeHandle_lower. }
  assert (Hw2 : trim (loginWallet again) = trim (loginWallet s)).
  { rewrite Hlw, E. simpl. apply trim_idempotent. }
  assert (E2 : handleVerify again = verified h (trim (loginWallet s)) cap again).
  { unfold handleVerify. rewrite Hh2, Hw2, Htruthy, (regex_truthy _ Hr), Hr. simpl.
    destruct Hdb as [Hown | [Habs _]].
    - rewrite Hown, String.eqb_refl. reflexivity.
    - rewrite Habs, Hud, E. simpl. rewrite Hcap. reflexivity. }
  rewrite E2, E. unfold notified. simpl. repeat split; reflexivity.
Qed.

(** monky_king comes back. *)
Lemma reverify_same_identity_witness :
  userData (handleVerify (mount (userData kingVerified) None))
  = userData kingVerified.
Proof.
  destruct (reverify_same_identity
              (filled "monky_king" kingWallet freshUser None)
              "monky_king" (Num (10 # 1)) None)
    as (_ & _ & _ & Hu & _); [reflexivity | reflexivity |].
  exact Hu.
Defined.

(** A refused verification. *)
Lemma handleVerify_failures_witness :
  notified FORMAT_ERROR (handleVerify kingMalformed).
Proof.
  destruct (handleVerify_failures kingMalformed) as (_ & Hf & _).
  apply Hf. repeat split; vm_compute; discriminate || reflexivity.
Defined.

End VerifyMore.

(* ===================================================================== *)
(** ** Amounts and the cap *)
(* ===================================================================== *)

Module AmountFacts.
Import JS PresaleScreen JSFacts Scenarios VerifyFacts HandleFacts NormalizeFacts Amounts.

Lemma gt_false_le (x y : Q) : gt (Num x) (Num y) = false -> (x <= y)%Q.
Proof.
  simpl. intros H. apply negb_false_iff in H. now apply Qle_bool_iff.
Qed.

Lemma gt_true_lt (x y : Q) : gt (Num x) (Num y) = true -> (y < x)%Q.
Proof.
  simpl. intros H. apply negb_true_iff in H.
  apply Qnot_le_lt. intros Hle. apply Qle_bool_iff in Hle. congruence.
Qed.







(** X5.  [handleAmountChange] clamps from above only.  With a numeric cap
    the new amount is a number not above the cap: an input that does not
    parse counts as 0, an input above the cap becomes the cap, and every
    other input, a negative one or one below the minimum contribution
    included, is taken as it is.  Nothing but the amount changes. *)
Theorem handleAmountChange_clamps_above (parsed : number) (s : State) (c : Q) :
  detectedCap s = Num c ->
  (exists a, amount (handleAmountChange parsed s) = Num a /\ (a <= c)%Q) /\
  (forall x, parsed = Num x -> (x <= c)%Q ->
             amount (handleAmountChange parsed s) = Num x) /\
  (forall x, parsed = Num x -> (c < x)%Q ->
             amount (handleAmountChange parsed s) = Num c) /\
  (parsed = NaN -> (0 <= c)%Q -> amount (handleAmountChange parsed s) = Num 0) /\
  handleAmountChange parsed s = setAmount (amount (handleAmountChange parsed s)) s.
Proof.
  intros Hc. unfold handleAmountChange. rewrite Hc.
  split; [| split; [| split; [| split; [| reflexivity]]]].
  - destruct parsed as [| x]; simpl isNaN; cbv iota.
    + destruct (gt (Num 0) (Num c)) eqn:E; simpl.
      * exists c. split; [reflexivity | lra].
      * exists 0%Q. split; [reflexivity | now apply gt_false_le].
    + destruct (gt (Num x) (Num c)) eqn:E; simpl.
      * exists c. split; [reflexivity | lra].
      * exists x. split; [reflexivity | now apply gt_false_le].
  - intros x -> Hle. simpl isNaN. cbv iota.
    destruct (gt (Num x) (Num c)) eqn:E; [| reflexivity].
    apply gt_true_lt in E. lra.
  - intros x -> Hlt. simpl isNaN. cbv iota.
    destruct (gt (Num x) (Num c)) eqn:E; [reflexivity |].
    apply gt_false_le in E. lra.
  - intros -> H0. simpl isNaN. cbv iota.
    destruct (gt (Num 0) (Num c)) eqn:E; [| reflexivity].
    apply gt_true_lt in E. lra.
Qed.

(** monky_king (cap 10) types 12, then -3. *)
Lemma handleAmountChange_clamps_above_witness :
  amount (handleAmountChange (Num 12) kingVerified) = Num (10 # 1) /\
  amount (handleAmountChange (Num (-3)) kingVerified) = Num (-3).
Proof.
  destruct (handleAmountChange_clamps_above (Num 12) kingVerified (10 # 1) eq_refl)
    as (_ & _ & Habove & _).
  destruct (handleAmountChange_clamps_above (Num (-3)) kingVerified (10 # 1) eq_refl)
    as (_ & Hbelow & _).
  split.
  - apply (Habove 12%Q); [reflexivity | reflexivity].
  - apply (Hbelow (-3)%Q); [reflexivity | discriminate].
Defined.




End AmountFacts.

(* ===================================================================== *)
(** ** Invariants of the mounted PresaleScreen *)
(* ===================================================================== *)

Module SessionFacts.
Import JS PresaleScreen JSFacts Scenarios VerifyFacts HandleFacts NormalizeFacts.
Import LedgerFacts Amounts AmountFacts CountdownFacts.

(** What the render after a handler leaves alone. *)
Lemma afterRender_fields (old new : State) :
  amount (afterRender old new) = amount new /\
  detectedCap (afterRender old new) = detectedCap new /\
  timeLeft (afterRender old new) = timeLeft new /\
  timerActive (afterRender old new) = timerActive new.
Proof.
  unfold afterRender. destruct (String.eqb _ _); [repeat split; reflexivity |].
  destruct (loadHistory_sets_history new) as [h ->]. repeat split; reflexivity.
Qed.

(** What [submitTx] leaves alone. *)
Lemma submitTx_fields (uuid : string) (now : Z) (s : State) :
  view (submitTx uuid now s) = view s /\
  userData (submitTx uuid now s) = userData s /\
  amount (submitTx uuid now s) = amount s /\
  detectedCap (submitTx uuid now s) = detectedCap s /\
  timeLeft (submitTx uuid now s) = timeLeft s /\
  timerActive (submitTx uuid now s) = timerActive s.
Proof.
  unfold submitTx.
  destruct (String.eqb (timeLeft s) "CLOSED"); [repeat split; reflexivity |].
  destruct (negb (truthy_string (txHash s)) || (String.length (txHash s) <? 32)%nat);
    [repeat split; reflexivity |].
  destruct (history s); repeat split; reflexivity.
Qed.

(** What [tick] leaves alone. *)
Lemma tick_fields (END now : Z) (s : State) :
  view (tick END now s) = view s /\
  userData (tick END now s) = userData s /\
  amount (tick END now s) = amount s /\
  detectedCap (tick END now s) = detectedCap s /\
  history (tick END now s) = history s /\
  storage (tick END now s) = storage s.
Proof. unfold tick. destruct (END - now <? 0)%Z; repeat split; reflexivity. Qed.

(** The steps, sorted by what they can change. *)
Lemma step_kinds (END : Z) (s t : State) :
  step END s t ->
  (view s = VERIFY /\ t = afterRender s (handleVerify s)) \/
  (view s = CONTRIBUTE /\ exists parsed, t = handleAmountChange parsed s) \/
  (view s = CONTRIBUTE /\ t = handleAmountBlur s) \/
  (view s = CONTRIBUTE /\ renders s = true /\ exists uuid now, t = submitTx uuid now s) \/
  (timerActive s = true /\ exists now, t = tick END now s) \/
  (view t = view s /\ userData t = userData s /\ detectedCap t = detectedCap s /\
   amount t = amount s /\ history t = history s /\ storage t = storage s /\
   timeLeft t = timeLeft s /\ timerActive t = timerActive s).
Proof.
  intros Hstep.
  destruct Hstep as [v s Hview | v s Hview | s Hview | p s Hview _ | s Hview _
                    | v s Hview _ | u n s Hview Hr | s Hview _ | s _ | n s Ht _].
  - do 5 right. repeat split; reflexivity.
  - do 5 right. repeat split; reflexivity.
  - left. auto.
  - right. left. eauto.
  - right. right. left. auto.
  - do 5 right. repeat split; reflexivity.
  - do 3 right. left. eauto.
  - do 5 right. repeat split; reflexivity.
  - do 5 right. repeat split; reflexivity.
  - do 4 right. left. eauto.
Qed.

(** A verify that fails leaves the [VERIFY] view. *)
Lemma handleVerify_view (s : State) :
  view s = VERIFY ->
  view (afterRender s (handleVerify s)) = CONTRIBUTE ->
  exists cap,
    handleVerify s
    = verified (normalizeHandle (loginHandle s)) (trim (loginWallet s)) cap s /\
    notified (UPLINK_STABLE (normalizeHandle (loginHandle s)) cap) (handleVerify s).
Proof.
  intros Hv. rewrite afterRender_view.
  destruct (handleVerify_outcome s) as [(m & E & _) | (cap & E & _)]; rewrite E.
  - simpl. congruence.
  - intros _. exists cap. split; reflexivity.
Qed.

(** *** The amount stays under the cap *)








(** *** The session identity *)

Lemma session_ok_step (END : Z) (s t : State) :
  step END s t -> session_ok s -> session_ok t.
Proof.
  intros Hstep Hok.
  destruct (step_kinds _ _ _ Hstep)
    as [[Hv ->] | [[Hv [p ->]] | [[Hv ->] | [(Hv & _ & u & n & ->) | [[_ [n ->]] | Hsame]]]]].
  - intros Hview.
    destruct (handleVerify_view s Hv Hview) as (cap & E & Hn).
    destruct (handleVerify_success_cap _ _ _ Hn) as (Hr & Ht & _).
    destruct (afterRender_fields s (handleVerify s)) as (_ & -> & _).
    rewrite afterRender_userData, E. simpl.
    split; [exact Hr |].
    split; [apply storedHandle_startsWith_at |].
    split; [apply storedHandle_lower |].
    split; [reflexivity | now apply truthy_number_not_NaN].
  - exact Hok.
  - exact Hok.
  - destruct (submitTx_fields u n s) as (Hview & Hu & _ & Hc & _).
    unfold session_ok. rewrite Hview, Hu, Hc. exact Hok.
  - destruct (tick_fields END n s) as (Hview & Hu & _ & Hc & _).
    unfold session_ok. rewrite Hview, Hu, Hc. exact Hok.
  - destruct Hsame as (Hview & Hu & Hc & _).
    unfold session_ok. rewrite Hview, Hu, Hc. exact Hok.
Qed.

(** X8.  In every reachable state of the [CONTRIBUTE] view the session
    identity is the one a verification produced: the wallet matches the
    address grammar, the handle begins with the marker and is lowercase,
    the session's actual commit is the detected cap, and the cap is a
    number. *)
Theorem session_identity_invariant (END : Z) (s : State) :
  reachable END s -> view s = CONTRIBUTE ->
  SOLANA_ADDRESS_REGEX_test (wallet (userData s)) = true /\
  startsWith_at (handle (userData s)) = true /\
  toLowerCase (handle (userData s)) = handle (userData s) /\
  actualCommit (userData s) = Some (detectedCap s) /\
  isNaN (detectedCap s) = false.
Proof.
  intros Hreach. revert s Hreach. change (forall s, reachable END s -> session_ok s).
  induction 1 as [ud st | s t _ IH Hstep].
  - intros Hv. exfalso.
    destruct (loadHistory_frame (initialState ud st)) as (_ & Hview & _).
    unfold mount in Hv. rewrite Hview in Hv. discriminate.
  - exact (session_ok_step _ _ _ Hstep IH).
Qed.

(** The session of the visitor who entered the handle @@__proto__. *)
Lemma session_identity_invariant_witness :
  actualCommit (userData protoReady) = Some (detectedCap protoReady).
Proof.
  assert (Hreach : reachable 0 protoReady).
  { unfold protoReady.
    eapply reachable_step; [| apply step_setTxHash; reflexivity].
    unfold protoVerified, entered.
    eapply reachable_step; [| apply step_handleVerify; reflexivity].
    unfold filled.
    eapply reachable_step; [| apply step_setLoginWallet; reflexivity].
    eapply reachable_step; [| apply step_setLoginHandle; reflexivity].
    apply reachable_mount. }
  destruct (session_identity_invariant 0 protoReady Hreach eq_refl)
    as (_ & _ & _ & H & _).
  exact H.
Defined.

(** *** The window closes for good *)

Lemma closed_stops_step (END : Z) (s t : State) :
  step END s t -> closed_stops s -> closed_stops t.
Proof.
  intros Hstep Hc.
  destruct (step_kinds _ _ _ Hstep)
    as [[Hv ->] | [[Hv [p ->]] | [[Hv ->] | [(Hv & _ & u & n & ->) | [[_ [n ->]] | Hsame]]]]].
  - destruct (afterRender_fields s (handleVerify s)) as (_ & _ & Ht & Ha).
    unfold closed_stops. rewrite Ht, Ha.
    destruct (handleVerify_outcome s) as [(m & E & _) | (cap & E & _)];
      rewrite E; exact Hc.
  - exact Hc.
  - exact Hc.
  - destruct (submitTx_fields u n s) as (_ & _ & _ & _ & Ht & Ha).
    unfold closed_stops. rewrite Ht, Ha. exact Hc.
  - unfold closed_stops, tick.
    destruct (END - n <? 0)%Z; simpl; [reflexivity |].
    intros H. now apply formatTimeLeft_not_CLOSED in H.
  - destruct Hsame as (_ & _ & _ & _ & _ & _ & Ht & Ha).
    unfold closed_stops. rewrite Ht, Ha. exact Hc.
Qed.

Lemma reachable_closed_stops (END : Z) (s : State) :
  reachable END s -> closed_stops s.
Proof.
  induction 1 as [ud st | s t _ IH Hstep].
  - intros H. exfalso. unfold mount in H.
    destruct (loadHistory_sets_history (initialState ud st)) as [h E].
    rewrite E in H. simpl in H. discriminate.
  - exact (closed_stops_step _ _ _ Hstep IH).
Qed.

Lemma closed_step (END : Z) (s t : State) :
  step END s t -> timeLeft s = "CLOSED" -> timerActive s = false ->
  timeLeft t = "CLOSED" /\ timerActive t = false.
Proof.
  intros Hstep Hc Ha.
  destruct (step_kinds _ _ _ Hstep)
    as [[Hv ->] | [[Hv [p ->]] | [[Hv ->] | [(Hv & _ & u & n & ->) | [[Ht _] | Hsame]]]]].
  - destruct (afterRender_fields s (handleVerify s)) as (_ & _ & -> & ->).
    destruct (handleVerify_outcome s) as [(m & E & _) | (cap & E & _)];
      rewrite E; auto.
  - auto.
  - auto.
  - destruct (submitTx_fields u n s) as (_ & _ & _ & _ & -> & ->). auto.
  - congruence.
  - destruct Hsame as (_ & _ & _ & _ & _ & _ & -> & ->). auto.
Qed.

(** X9.  Closing is permanent.  Once a reachable state shows CLOSED, the
    interval is cleared, every state reached from it shows CLOSED, and
    every append attempted there is refused with the closed-window message
    and changes neither the history nor the stored ledger. *)
Theorem window_closes_for_good (END : Z) (s t : State) :
  reachable END s -> timeLeft s = "CLOSED" -> rtc (step END) s t ->
  timerActive s = false /\
  timeLeft t = "CLOSED" /\
  timerActive t = false /\
  (forall uuid now,
     submitTx uuid now t = setNotification PHASE_END ERROR t /\
     history (submitTx uuid now t) = history t /\
     storage (submitTx uuid now t) = storage t).
Proof.
  intros Hreach Hc Hsteps.
  pose proof (reachable_closed_stops _ _ Hreach Hc) as Ha.
  split; [exact Ha |].
  assert (H : timeLeft t = "CLOSED" /\ timerActive t = false).
  { clear Hreach. induction Hsteps as [s | s m t Hsm _ IH]; [auto |].
    destruct (closed_step _ _ _ Hsm Hc Ha) as [Hc' Ha']. auto. }
  destruct H as [Hct Hat]. split; [exact Hct |]. split; [exact Hat |].
  intros uuid now. unfold submitTx. rewrite Hct. simpl. repeat split; reflexivity.
Qed.

(** One second after the deadline monky_king's window closes; pasting
    another proof afterwards does not reopen it. *)
Lemma window_closes_for_good_witness :
  timeLeft (setTxHash proof40 (tick 0 1000 kingZero)) = "CLOSED".
Proof.
  assert (Hreach : reachable 0 (tick 0 1000 kingZero)).
  { eapply reachable_step; [| apply step_tick; reflexivity].
    unfold kingZero.
    eapply reachable_step; [| apply step_handleAmountChange; reflexivity].
    eapply reachable_step; [| apply step_setTxHash; reflexivity].
    unfold kingVerified, entered.
    eapply reachable_step; [| apply step_handleVerify; reflexivity].
    unfold filled.
    eapply reachable_step; [| apply step_setLoginWallet; reflexivity].
    eapply reachable_step; [| apply step_setLoginHandle; reflexivity].
    apply reachable_mount. }
  assert (Hsteps : rtc (step 0) (tick 0 1000 kingZero)
                     (setTxHash proof40 (tick 0 1000 kingZero))).
  { eapply rtc_l; [apply (step_setTxHash 0 proof40); reflexivity | apply rtc_refl]. }
  destruct (window_closes_for_good 0 _ _ Hreach eq_refl Hsteps) as (_ & H & _).
  exact H.
Defined.

(** *** The shape of the countdown text *)

Lemma two_digits_nat (n : nat) :
  (n < 60)%nat -> String.length (padStart2 (toString (Z.of_nat n))) = 2%nat.
Proof.
  intros H. do 60 (destruct n as [| n]; [reflexivity |]). lia.
Qed.

Lemma two_digits (z : Z) :
  (0 <= z < 60)%Z -> String.length (padStart2 (toString z)) = 2%nat.
Proof.
  intros H. rewrite <- (Z2Nat.id z) by lia. apply two_digits_nat. lia.
Qed.

Lemma padStart2_two_digit_nat (n : nat) :
  (n < 60)%nat -> padStart2 (toString (Z.of_nat n)) = two_digit_text (Z.of_nat n).
Proof.
  intros H. do 60 (destruct n as [| n]; [reflexivity |]). lia.
Qed.

Lemma padStart2_two_digit (z : Z) :
  (0 <= z < 60)%Z -> padStart2 (toString z) = two_digit_text z.
Proof.
  intros H. rewrite <- (Z2Nat.id z) by lia. apply padStart2_two_digit_nat. lia.
Qed.

(** X10.  For a non-negative distance the countdown text is made of three
    two-character fields separated by colons: it is eight characters
    long, and it is the two decimal digits of the hours of the day, a
    colon, the two digits of the minutes of the hour, a colon, and the two
    digits of the seconds of the minute. *)
Theorem formatTimeLeft_shape (d : Z) :
  (0 <= d)%Z ->
  String.length (formatTimeLeft d) = 8%nat /\
  String.length (padStart2 (toString (hours d))) = 2%nat /\
  String.length (padStart2 (toString (minutes d))) = 2%nat /\
  String.length (padStart2 (toString (seconds d))) = 2%nat /\
  formatTimeLeft d
  = two_digit_text ((d `div` 3600000) `mod` 24) ++ ":" ++
    two_digit_text ((d `div` 60000) `mod` 60) ++ ":" ++
    two_digit_text ((d `div` 1000) `mod` 60).
Proof.
  intros Hd.
  assert (Bh : (0 <= hours d < 60)%Z).
  { rewrite hours_digit by exact Hd.
    pose proof (Z.mod_pos_bound (d `div` 3600000) 24 ltac:(lia)). lia. }
  assert (Bm : (0 <= minutes d < 60)%Z).
  { rewrite minutes_digit by exact Hd. apply Z.mod_pos_bound. lia. }
  assert (Bs : (0 <= seconds d < 60)%Z).
  { rewrite seconds_digit by exact Hd. apply Z.mod_pos_bound. lia. }
  pose proof (two_digits _ Bh) as Hh.
  pose proof (two_digits _ Bm) as Hm.
  pose proof (two_digits _ Bs) as Hs.
  split; [| split; [exact Hh | split; [exact Hm | split; [exact Hs |]]]].
  - unfold formatTimeLeft. rewrite !length_append, Hh, Hm, Hs. reflexivity.
  - unfold formatTimeLeft.
    rewrite (padStart2_two_digit _ Bh), (padStart2_two_digit _ Bm),
      (padStart2_two_digit _ Bs).
    rewrite (hours_digit d Hd), (minutes_digit d Hd), (seconds_digit d Hd).
    reflexivity.
Qed.

(** Three hours, five seconds. *)
Lemma formatTimeLeft_shape_witness :
  formatTimeLeft 10805000 = "03:00:05".
Proof.
  destruct (formatTimeLeft_shape 10805000 ltac:(lia)) as (_ & _ & _ & _ & H).
  rewrite H. reflexivity.
Defined.

(** *** The ledger across remounts and steps *)

(** X11.  What an append wrote is found again.  After an append that
    reported success (the completion notice is shown and the proof field
    has been cleared), in a state with a handle, an array for a history and
    a grouping key other than [__proto__], a component mounted afresh with
    the resulting user data and stored ledger loads exactly the history
    the state holds. *)
Theorem remount_restores_history (uuid : string) (now : Z) (s : State)
    (old : list Submission) :
  history s = Entries old ->
  truthy_string (handle (userData s)) = true ->
  handleKey (userData s) <> "__proto__" ->
  notified TRANSMISSION_COMPLETE (submitTx uuid now s) ->
  txHash (submitTx uuid now s) = "" ->
  history (mount (userData (submitTx uuid now s)) (storage (submitTx uuid now s)))
  = history (submitTx uuid now s) /\
  userData (mount (userData (submitTx uuid now s)) (storage (submitTx uuid now s)))
  = userData s.
Proof.
  intros Hold Ht Hk Hn _.
  apply submitTx_notified_inv in Hn as [Hc Hl]. apply String.eqb_neq in Hc.
  destruct (submitTx_accepted uuid now s old Hc Hl Hold) as (_ & Hh & Hst & _).
  destruct (submitTx_fields uuid now s) as (_ & Hu & _).
  rewrite Hh, Hst, Hu. rewrite (ledger_set_insert _ _ _ Hk).
  split; [| apply VerifyMore.mount_login_fields].
  unfold mount, loadHistory, ledger_get. simpl. rewrite Ht.
  rewrite lookup_insert_eq. reflexivity.
Qed.

(** The visitor who verified @@constructor over monky_king's history
    submits, then the page is loaded again. *)
Lemma remount_restores_history_witness :
  exists sub,
    history
      (mount
         (userData (submitTx "id-1" 1 (setTxHash proof40 constructorAfterKing)))
         (storage (submitTx "id-1" 1 (setTxHash proof40 constructorAfterKing))))
    = Entries [sub; earlier].
Proof.
  assert (Hk : handleKey (userData (setTxHash proof40 constructorAfterKing))
               <> "__proto__") by (vm_compute; discriminate).
  assert (Hh : history (setTxHash proof40 constructorAfterKing) = Entries [earlier])
    by (vm_compute; reflexivity).
  assert (Hn : notified TRANSMISSION_COMPLETE
                 (submitTx "id-1" 1 (setTxHash proof40 constructorAfterKing)))
    by (vm_compute; reflexivity).
  destruct (remount_restores_history "id-1" 1 _ [earlier] Hh eq_refl Hk Hn eq_refl)
    as [H _].
  eexists. rewrite H. vm_compute. reflexivity.
Defined.

Lemma reachable_steps (END : Z) (s t : State) :
  reachable END s -> rtc (step END) s t -> reachable END t.
Proof.
  intros Hs Hsteps. induction Hsteps as [s | s m t Hsm _ IH]; [exact Hs |].
  apply IH. exact (reachable_step _ _ _ Hs Hsm).
Qed.

(** The steps of the [CONTRIBUTE] view, seen from the ledger: nothing
    happens to history and store, or an append puts one PENDING entry in
    front and writes the store. *)
Lemma ledger_step (END : Z) (s t : State) (old : list Submission) :
  step END s t -> view s = CONTRIBUTE -> history s = Entries old ->
  (history t = Entries old /\ storage t = storage s) \/
  (exists sub,
     sub_status sub = "PENDING" /\
     history t = Entries (sub :: old) /\
     storage t = Some (ledger_set (handleKey (userData s)) (sub :: old)
                         (match storage s with Some d => d | None => ∅ end))).
Proof.
  intros Hstep Hv Hold.
  destruct (step_kinds _ _ _ Hstep)
    as [[Hv' _] | [[_ [p ->]] | [[_ ->] | [(_ & _ & u & n & ->) | [[_ [n ->]] | Hsame]]]]].
  - congruence.
  - left. auto.
  - left. auto.
  - unfold submitTx.
    destruct (String.eqb (timeLeft s) "CLOSED"); [left; auto |].
    destruct (negb (truthy_string (txHash s)) || (String.length (txHash s) <? 32)%nat);
      [left; auto |].
    rewrite Hold. right. eexists. repeat split; reflexivity.
  - destruct (tick_fields END n s) as (_ & _ & _ & _ & -> & ->). left. auto.
  - destruct Hsame as (_ & _ & _ & _ & -> & -> & _). left. auto.
Qed.

(** X12.  The ledger is append-only.  Along any steps from a state of the
    [CONTRIBUTE] view whose history is an array, the in-memory history only
    gains entries in front, all of them PENDING, and no earlier entry is
    removed or changed.  While nothing is appended the store is not
    written; and unless the grouping key is [__proto__], the store is
    either as it was or holds, under the grouping key, a tail of the
    in-memory history that has every earlier entry and at least one of the
    new ones. *)
Theorem ledger_append_only (END : Z) (s t : State) (old : list Submission) :
  rtc (step END) s t ->
  view s = CONTRIBUTE -> history s = Entries old ->
  exists newer,
    history t = Entries (newer ++ old)%list /\
    Forall (fun sub => sub_status sub = "PENDING") newer /\
    (newer = [] -> storage t = storage s) /\
    (handleKey (userData s) <> "__proto__" ->
     storage t = storage s \/
     exists k, (k < length newer)%nat /\
       slice t (handleKey (userData s)) = Some (drop k newer ++ old)%list).
Proof.
  intros Hsteps. revert old.
  induction Hsteps as [s | s m t Hsm Hmt IH]; intros old Hv Hold.
  - exists []. split; [exact Hold |]. split; [constructor |].
    split; [reflexivity | left; reflexivity].
  - destruct (step_CONTRIBUTE _ _ _ Hsm Hv) as [Hu Hv'].
    destruct (ledger_step _ _ _ _ Hsm Hv Hold)
      as [[Hh Hst] | (sub & Hp & Hh & Hst)].
    + destruct (IH old Hv' Hh) as (newer & Ht & Hpend & Hnil & Hcons).
      exists newer. rewrite Hu, Hst in *. auto.
    + destruct (IH (sub :: old) Hv' Hh) as (newer & Ht & Hpend & Hnil & Hcons).
      exists (newer ++ [sub])%list. rewrite <- app_assoc. simpl.
      split; [exact Ht |].
      split; [apply Forall_app; split; [exact Hpend | repeat constructor; exact Hp] |].
      split; [intros E; destruct newer; discriminate |].
      intros Hk. right. rewrite Hu in Hcons.
      destruct (Hcons Hk) as [Hsame | (k & Hlt & Hs)].
      * exists (length newer). rewrite length_app. simpl. split; [lia |].
        rewrite drop_app_length. unfold slice. rewrite Hsame, Hst.
        rewrite (ledger_set_insert _ _ _ Hk). apply lookup_insert_eq.
      * exists k. rewrite length_app. simpl. split; [lia |].
        rewrite drop_app_le by lia. rewrite <- app_assoc. exact Hs.
Qed.

(** monky_king, with an earlier submission in the ledger, submits
    twice. *)
Lemma ledger_append_only_witness :
  exists a b,
    history (submitTx "id-2" 2 (setTxHash proof40
               (submitTx "id-1" 1 (setTxHash proof40 kingAsTyped))))
    = Entries [b; a; earlier] /\
    sub_status a = "PENDING" /\ sub_status b = "PENDING".
Proof.
  assert (Hsteps : rtc (step 0) kingAsTyped
            (submitTx "id-2" 2 (setTxHash proof40
               (submitTx "id-1" 1 (setTxHash proof40 kingAsTyped))))).
  { eapply rtc_l; [apply (step_setTxHash 0 proof40); reflexivity |].
    eapply rtc_l; [apply (step_submitTx 0 "id-1" 1); reflexivity |].
    eapply rtc_l; [apply (step_setTxHash 0 proof40); reflexivity |].
    eapply rtc_l; [apply (step_submitTx 0 "id-2" 2); reflexivity |].
    apply rtc_refl. }
  assert (Hold : history kingAsTyped = Entries [earlier]) by (vm_compute; reflexivity).
  destruct (ledger_append_only 0 _ _ [earlier] Hsteps eq_refl Hold)
    as (newer & Hh & Hpend & _).
  assert (E : exists a b,
            history (submitTx "id-2" 2 (setTxHash proof40
                       (submitTx "id-1" 1 (setTxHash proof40 kingAsTyped))))
            = Entries ([b; a] ++ [earlier])%list)
    by (eexists; eexists; vm_compute; reflexivity).
  destruct E as (a & b & E). exists a, b.
  split; [exact E |].
  rewrite Hh in E. injection E as E.
  apply (app_inv_tail [earlier] newer [b; a]) in E. subst newer.
  inversion Hpend as [| ? ? Hb Hrest]. inversion Hrest as [| ? ? Ha _].
  split; assumption.
Defined.

(** *** Who writes what *)

(** X22.  Writes are confined.  A step of the mounted component changes
    the stored ledger only if it is an append that reported success, and
    changes the session's user data only if it is a verification that
    reported success; typing, blurring, ticking, dismissing a message,
    failed verifications and refused appends write neither. *)
Theorem writes_are_confined (END : Z) (s t : State) :
  step END s t ->
  (storage t <> storage s ->
     view s = CONTRIBUTE /\
     exists uuid now, t = submitTx uuid now s /\ notified TRANSMISSION_COMPLETE t) /\
  (userData t <> userData s ->
     view s = VERIFY /\
     exists h cap, notified (UPLINK_STABLE h cap) (handleVerify s)).
Proof.
  intros Hstep.
  destruct (step_kinds _ _ _ Hstep)
    as [[Hv ->] | [[Hv [p ->]] | [[Hv ->] | [(Hv & _ & u & n & ->) | [[_ [n ->]] | Hsame]]]]].
  - rewrite afterRender_storage, afterRender_userData.
    destruct (handleVerify_outcome s) as [(m & E & _) | (cap & E & _)]; rewrite E.
    + split; intros H; exfalso; apply H; reflexivity.
    + split; [intros H; exfalso; apply H; reflexivity |].
      intros _. split; [exact Hv |]. eexists. exists cap. reflexivity.
  - split; intros H; exfalso; apply H; reflexivity.
  - split; intros H; exfalso; apply H; reflexivity.
  - destruct (submitTx_fields u n s) as (_ & Hu & _).
    split; [| intros H; contradiction].
    intros Hst. split; [exact Hv |]. exists u, n. split; [reflexivity |].
    revert Hst. unfold notified, submitTx.
    destruct (String.eqb (timeLeft s) "CLOSED");
      [intros H; exfalso; apply H; reflexivity |].
    destruct (negb (truthy_string (txHash s)) || (String.length (txHash s) <? 32)%nat);
      [intros H; exfalso; apply H; reflexivity |].
    destruct (history s); [reflexivity | intros H; exfalso; apply H; reflexivity].
  - destruct (tick_fields END n s) as (_ & Hu & _ & _ & _ & Hst).
    split; intros H; contradiction.
  - destruct Hsame as (_ & Hu & _ & _ & _ & Hst & _).
    split; intros H; contradiction.
Qed.

(** monky_king's append is such a write. *)
Lemma writes_are_confined_witness :
  notified TRANSMISSION_COMPLETE (submitTx "id-1" 1 kingZero).
Proof.
  destruct (writes_are_confined 0 kingZero (submitTx "id-1" 1 kingZero)) as [Hst _];
    [apply step_submitTx; reflexivity |].
  destruct Hst as (_ & _ & _ & _ & Hn); [vm_compute; discriminate |].
  exact Hn.
Defined.

End SessionFacts.

(* ===================================================================== *)
(** ** More on the access gate and the queue *)
(* ===================================================================== *)

Module AdminMore.
Import JS AdminScreen JSFacts AdminFacts Moderation.

(** What the render after an auth update leaves alone. *)
Lemma afterRender_auth (adminEmail : option string) (old new : State) :
  authUser (afterRender adminEmail old new) = authUser new /\
  authReady (afterRender adminEmail old new) = authReady new.
Proof.
  unfold afterRender, queueEffect, cleanup.
  destruct (_ && _); [split; reflexivity |].
  destruct (_ || _); split; reflexivity.
Qed.

(** The render after an auth update keeps the queue or empties it. *)
Lemma afterRender_applications (adminEmail : option string) (old new : State) :
  applications (afterRender adminEmail old new) = applications new \/
  applications (afterRender adminEmail old new) = [].
Proof.
  unfold afterRender, queueEffect, cleanup.
  destruct (_ && _); [now left |].
  destruct (_ || _); [now right | now left].
Qed.

Lemma live_afterRender (adminEmail : option string) (old new : State) :
  listening new = listening old -> applications new = applications old ->
  live old -> live (afterRender adminEmail old new).
Proof.
  intros Hl Ha Hold. unfold afterRender, queueEffect, cleanup, live.
  destruct (_ && _); [rewrite Hl, Ha; exact Hold |].
  destruct (_ || _); simpl; [reflexivity | discriminate].
Qed.

Lemma live_step (adminEmail : option string) (s t : State) :
  step adminEmail s t -> live s -> live t.
Proof.
  intros Hstep Hs.
  destruct Hstep as [u s | u s | s | docs s Hl | err s Hl | s _ | st o s | s].
  - now apply live_afterRender.
  - now apply live_afterRender.
  - now apply live_afterRender.
  - unfold live, onSnapshotNext. simpl. congruence.
  - unfold live. reflexivity.
  - exact Hs.
  - unfold live in *. destruct o as [e |]; [| destruct st]; exact Hs.
  - exact Hs.
Qed.

(** X13.  The component never holds queue data without a live listener: in
    every reachable state, a queue that is not empty goes with an attached
    listener and the AUTHENTICATED_ALLOWED state.  So after a subscription
    error the queue stays empty until a listener is attached again. *)
Theorem queue_needs_listener (adminEmail : option string) (s : State) :
  reachable adminEmail s ->
  (listening s = false -> applications s = [] /\ presentedQueue adminEmail s = []) /\
  (applications s <> [] ->
     listening s = true /\ accessState adminEmail s = AUTHENTICATED_ALLOWED).
Proof.
  intros Hreach.
  assert (Hlive : live s).
  { induction Hreach as [| s t _ IH Hstep].
    - unfold live, mount. reflexivity.
    - exact (live_step _ _ _ Hstep IH). }
  assert (Hoff : listening s = false ->
                 applications s = [] /\ presentedQueue adminEmail s = []).
  { intros Hl. pose proof (Hlive Hl) as Ha. split; [exact Ha |].
    unfold presentedQueue, render. rewrite Ha.
    destruct (authReady s); simpl; [| reflexivity].
    destruct (authUser s); [| reflexivity].
    destruct (isAllowed adminEmail (Some u)); reflexivity. }
  split; [exact Hoff |].
  intros Hne.
  destruct (listening s) eqn:Hl; [| destruct (Hoff eq_refl); contradiction].
  split; [reflexivity |].
  apply accessState_ALLOWED. now apply (reachable_gated _ _ Hreach).
Qed.

(** After the error of the C9 scenario no listener is left. *)
Lemma queue_needs_listener_witness :
  applications
    (toastTimeout
       (onSnapshotError (Some {| err_message := "permission-denied" |})
          AdminScenarios.moderating)) = [].
Proof.
  assert (Hreach : reachable AdminScenarios.configuredEmail
            (toastTimeout
               (onSnapshotError (Some {| err_message := "permission-denied" |})
                  AdminScenarios.moderating))).
  { eapply reachable_step; [| apply step_toastTimeout].
    eapply reachable_step; [| apply step_onSnapshotError; reflexivity].
    unfold AdminScenarios.moderating.
    eapply reachable_step; [| apply step_onSnapshotNext; reflexivity].
    eapply reachable_step; [apply reachable_mount |].
    apply step_onAuthStateChanged. }
  destruct (queue_needs_listener _ _ Hreach) as [Hoff _].
  exact (proj1 (Hoff eq_refl)).
Defined.

(** X14.  Signing out shuts the queue.  When the auth callback reports no
    user in a reachable state, the login screen is rendered, the gate is
    UNAUTHENTICATED, the listener is detached and the queue is empty. *)
Theorem sign_out_shuts_queue (adminEmail : option string) (s : State) :
  reachable adminEmail s ->
  let t := afterRender adminEmail s (onAuthStateChanged None s) in
  accessState adminEmail t = UNAUTHENTICATED /\
  render adminEmail t = LOGIN /\
  listening t = false /\
  applications t = [].
Proof.
  intros Hreach t.
  assert (Hreacht : reachable adminEmail t)
    by (eapply reachable_step; [exact Hreach | apply step_onAuthStateChanged]).
  destruct (afterRender_auth adminEmail s (onAuthStateChanged None s)) as [Hu Hr].
  fold t in Hu, Hr. simpl in Hu, Hr.
  assert (Ha : accessState adminEmail t = UNAUTHENTICATED)
    by (unfold accessState; rewrite Hr, Hu; reflexivity).
  split; [exact Ha |].
  split; [unfold render; rewrite Hr, Hu; reflexivity |].
  destruct (reachable_shut _ _ Hreacht) as (Hl & Happ & _); [congruence | auto].
Qed.

(** The moderator, two rows on screen, signs out. *)
Lemma sign_out_shuts_queue_witness :
  applications
    (afterRender AdminScenarios.configuredEmail AdminScenarios.moderating
       (onAuthStateChanged None AdminScenarios.moderating)) = [].
Proof.
  assert (Hreach : reachable AdminScenarios.configuredEmail AdminScenarios.moderating).
  { unfold AdminScenarios.moderating.
    eapply reachable_step; [| apply step_onSnapshotNext; reflexivity].
    eapply reachable_step; [apply reachable_mount |].
    apply step_onAuthStateChanged. }
  destruct (sign_out_shuts_queue _ _ Hreach) as (_ & _ & _ & H).
  exact H.
Defined.

(** X15.  Signing in opens it.  When the auth callback reports a user the
    access check allows, in a reachable state that is not
    AUTHENTICATED_ALLOWED, the listener is attached, the gate is
    AUTHENTICATED_ALLOWED, and the queue is empty until the first
    snapshot. *)
Theorem sign_in_attaches_listener (adminEmail : option string) (u : User) (s : State) :
  reachable adminEmail s ->
  isAllowed adminEmail (Some u) = true ->
  accessState adminEmail s <> AUTHENTICATED_ALLOWED ->
  let t := afterRender adminEmail s (onAuthStateChanged (Some u) s) in
  listening t = true /\
  accessState adminEmail t = AUTHENTICATED_ALLOWED /\
  applications t = [] /\
  render adminEmail t = QUEUE (actionError s) (toast s) [].
Proof.
  intros Hreach Hallow Hna t.
  destruct (reachable_shut _ _ Hreach Hna) as (_ & Happ & _).
  assert (Hoff : authReady s && isAllowed adminEmail (authUser s) = false).
  { destruct (authReady s) eqn:Hr, (isAllowed adminEmail (authUser s)) eqn:Ha;
      try reflexivity.
    exfalso. apply Hna. apply accessState_ALLOWED. auto. }
  assert (E : t = setListening true (onAuthStateChanged (Some u) s)).
  { unfold t, afterRender. simpl authReady. simpl authUser. rewrite Hallow.
    assert (Hdeps : Bool.eqb (authReady s) true
                    && Bool.eqb (isAllowed adminEmail (authUser s)) true = false).
    { destruct (authReady s), (isAllowed adminEmail (authUser s));
        try reflexivity; discriminate. }
    rewrite Hdeps. unfold queueEffect, cleanup. simpl authReady. simpl authUser.
    rewrite Hallow. reflexivity. }
  rewrite E. split; [reflexivity |].
  split; [apply accessState_ALLOWED; split; [reflexivity | exact Hallow] |].
  split; [exact Happ |].
  unfold render. simpl authReady. simpl authUser. rewrite Hallow. simpl.
  now rewrite Happ.
Qed.

(** The moderator signs in on the freshly mounted component. *)
Lemma sign_in_attaches_listener_witness :
  listening
    (AdminScenarios.signedIn AdminScenarios.configuredEmail AdminScenarios.moderator)
  = true.
Proof.
  destruct (sign_in_attaches_listener AdminScenarios.configuredEmail
              AdminScenarios.moderator (mount AdminScenarios.configuredEmail))
    as (H & _).
  - apply reachable_mount.
  - reflexivity.
  - discriminate.
  - exact H.
Defined.

(** *** Rows and decisions *)

Lemma all_pending_afterRender (adminEmail : option string) (old new : State) :
  applications new = applications old ->
  all_pending old -> all_pending (afterRender adminEmail old new).
Proof.
  intros Ha Hold. unfold all_pending.
  destruct (afterRender_applications adminEmail old new) as [-> | ->].
  - rewrite Ha. exact Hold.
  - constructor.
Qed.

Lemma all_pending_step (adminEmail : option string) (s t : State) :
  step adminEmail s t -> all_pending s -> all_pending t.
Proof.
  intros Hstep Hs.
  destruct Hstep as [u s | u s | s | docs s Hl | err s Hl | s _ | st o s | s].
  - now apply all_pending_afterRender.
  - now apply all_pending_afterRender.
  - now apply all_pending_afterRender.
  - unfold all_pending, onSnapshotNext. simpl.
    apply List.Forall_forall. intros r Hr.
    apply filter_In in Hr as [_ Hr]. now apply is_PENDING_true.
  - unfold all_pending. simpl. constructor.
  - exact Hs.
  - unfold all_pending in *. destruct o as [e |]; [| destruct st]; exact Hs.
  - exact Hs.
Qed.

(** X16.  Every row the component holds counts as PENDING, in every
    reachable state; so the [disabled] guards of the APPROVE and REJECT
    buttons, which test the row for APPROVED and REJECTED, are never on
    for a row on screen. *)
Theorem rows_are_pending (adminEmail : option string) (s : State) (r : Row) :
  reachable adminEmail s -> In r (applications s) ->
  status_or_PENDING r = JString "PENDING" /\
  approveDisabled r = false /\
  rejectDisabled r = false.
Proof.
  intros Hreach Hin.
  assert (Hall : all_pending s).
  { clear Hin. induction Hreach as [| s t _ IH Hstep].
    - unfold all_pending, mount. simpl. constructor.
    - exact (all_pending_step _ _ _ Hstep IH). }
  unfold all_pending in Hall. rewrite List.Forall_forall in Hall.
  pose proof (Hall r Hin) as Hp. split; [exact Hp |].
  unfold approveDisabled, rejectDisabled, is_text.
  unfold status_or_PENDING in Hp.
  destruct (prop r "status") as [| | b | n | t]; try (split; reflexivity).
  destruct (truthy (JString t)) eqn:Ht.
  - injection Hp as ->. split; reflexivity.
  - destruct t; [split; reflexivity | discriminate].
Qed.

(** The two rows the moderator sees. *)
Lemma rows_are_pending_witness :
  Forall (fun r => approveDisabled r = false) (applications AdminScenarios.moderating).
Proof.
  assert (Hreach : reachable AdminScenarios.configuredEmail AdminScenarios.moderating).
  { unfold AdminScenarios.moderating.
    eapply reachable_step; [| apply step_onSnapshotNext; reflexivity].
    eapply reachable_step; [apply reachable_mount |].
    apply step_onAuthStateChanged. }
  apply List.Forall_forall. intros r Hr.
  destruct (rows_are_pending _ _ r Hreach Hr) as (_ & H & _). exact H.
Defined.

(** X17.  A decision does not touch the queue.  [updateStatus], from its
    start to the settling of the write, changes neither the rows, nor the
    listener, nor the session; a write that succeeds clears the action
    error and shows the toast for APPROVED only; a write that fails shows
    a non-empty action error (the message of the error, or UPDATE_FAILED)
    and no toast. *)
Theorem updateStatus_keeps_queue (status : Decision)
    (outcome : option (option JsError)) (s : State) :
  let t := updateStatus_settle status outcome (updateStatus_begin s) in
  applications t = applications s /\
  listening t = listening s /\
  authUser t = authUser s /\
  authReady t = authReady s /\
  (outcome = None ->
     actionError t = None /\
     toast t = match status with
               | APPROVED => Some "APPROVED: Application status updated."
               | REJECTED => toast s
               end) /\
  (forall e, outcome = Some e ->
     actionError t = Some (message_or e "UPDATE_FAILED") /\
     message_or e "UPDATE_FAILED" <> "" /\
     toast t = toast s).
Proof.
  intros t. unfold t, updateStatus_settle, updateStatus_begin.
  assert (Hmsg : forall e, message_or e "UPDATE_FAILED" <> "").
  { intros e. unfold message_or, string_or.
    destruct e as [e' |]; [| discriminate].
    destruct (truthy_string (err_message e')) eqn:E; [| discriminate].
    now apply truthy_string_true. }
  destruct outcome as [e |]; [| destruct status]; simpl;
    (split; [reflexivity |]); (split; [reflexivity |]);
    (split; [reflexivity |]); (split; [reflexivity |]); split.
  - discriminate.
  - intros e' [= <-]. split; [reflexivity |]. split; [apply Hmsg | reflexivity].
  - intros _. split; reflexivity.
  - discriminate.
  - intros _. split; reflexivity.
  - discriminate.
Qed.

Lemma updateStatus_fields_status (status : Decision) (reviewedAt : string)
    (u : option User) :
  updateStatus_fields status reviewedAt u !! "status"
  = Some (JString (decisionText status)).
Proof. destruct status; reflexivity. Qed.

(** X18.  A decided application leaves the queue.  The document
    [updateStatus] writes (status, review time and reviewer merged into
    the stored fields) has the decision as its status and the session
    email, or null, as its reviewer, keeps its id and its other fields, and
    is presented by no later snapshot delivery.  Nothing guards the write:
    a second decision on the same document replaces the first. *)
Theorem decided_application_leaves_queue (status again : Decision)
    (reviewedAt later : string) (u : option User) (d : Doc)
    (docs : list Doc) (s : State) :
  let d' := updateDoc (updateStatus_fields status reviewedAt u) d in
  prop (row_of d') "status" = JString (decisionText status) /\
  doc_data d' !! "reviewer" = Some (reviewerOf u) /\
  doc_id d' = doc_id d /\
  (forall k, k <> "status" -> k <> "reviewedAt" -> k <> "reviewer" ->
             doc_data d' !! k = doc_data d !! k) /\
  ~ In (row_of d') (applications (onSnapshotNext docs s)) /\
  prop (row_of (updateDoc (updateStatus_fields again later u) d')) "status"
  = JString (decisionText again).
Proof.
  intros d'.
  assert (Hst : forall st at' dd,
            prop (row_of (updateDoc (updateStatus_fields st at' u) dd)) "status"
            = JString (decisionText st)).
  { intros st at' dd. rewrite row_of_status. unfold updateDoc. simpl.
    rewrite lookup_union, updateStatus_fields_status.
    destruct (doc_data dd !! "status"); reflexivity. }
  split; [apply Hst |].
  split.
  { unfold d', updateDoc. simpl. rewrite lookup_union.
    assert (E : updateStatus_fields status reviewedAt u !! "reviewer"
                = Some (reviewerOf u)) by (destruct status; reflexivity).
    rewrite E. destruct (doc_data d !! "reviewer"); reflexivity. }
  split; [reflexivity |].
  split.
  { intros k H1 H2 H3. unfold d', updateDoc, updateStatus_fields. simpl.
    rewrite lookup_union.
    rewrite !lookup_insert_ne by congruence. rewrite lookup_empty.
    destruct (doc_data d !! k); reflexivity. }
  split; [| apply Hst].
  intros Hin. unfold onSnapshotNext in Hin. simpl in Hin.
  apply filter_In in Hin as [_ Hp]. apply is_PENDING_true in Hp.
  unfold d' in Hp.
  rewrite (status_or_PENDING_text _ _ (Hst status reviewedAt d)) in Hp.
  - destruct status; discriminate.
  - destruct status; discriminate.
Qed.

(** X19.  The id of a row is the id of its document unless the document
    carries a field named id, which then takes its place; every other
    field of the row is the field of the document. *)
Theorem row_of_id (d : Doc) :
  (doc_data d !! "id" = None -> prop (row_of d) "id" = JString (doc_id d)) /\
  (forall v, doc_data d !! "id" = Some v -> prop (row_of d) "id" = v) /\
  (forall k, k <> "id" -> row_of d !! k = doc_data d !! k).
Proof.
  unfold prop, row_of. repeat split.
  - intros H. rewrite lookup_union, H, lookup_singleton_eq. reflexivity.
  - intros v H. rewrite lookup_union, H, lookup_singleton_eq. reflexivity.
  - intros k Hk. rewrite lookup_union, lookup_singleton_ne by congruence.
    destruct (doc_data d !! k); reflexivity.
Qed.

(** An application whose data has its own id field. *)
Lemma row_of_id_witness :
  prop (row_of (AdminScenarios.application "a9" [("id", JString "a1")])) "id"
  = JString "a1".
Proof.
  apply (row_of_id (AdminScenarios.application "a9" [("id", JString "a1")])).
  reflexivity.
Defined.

(** X20.  The access check does not see letter case: replacing the
    configured email or the session email by one that agrees with it up to
    case does not change the verdict. *)
Theorem isAllowed_ignores_case (a1 a2 e1 e2 : string) :
  toLowerCase a1 = toLowerCase a2 ->
  toLowerCase e1 = toLowerCase e2 ->
  isAllowed (Some a1) (Some {| email := Some e1 |})
  = isAllowed (Some a2) (Some {| email := Some e2 |}).
Proof.
  intros Ha He.
  assert (Hte : truthy_string e1 = truthy_string e2)
    by (rewrite <- (toLowerCase_truthy e1), <- (toLowerCase_truthy e2); now rewrite He).
  assert (Hta : truthy_string a1 = truthy_string a2)
    by (rewrite <- (toLowerCase_truthy a1), <- (toLowerCase_truthy a2); now rewrite Ha).
  unfold isAllowed. cbn [email]. rewrite Hte, Hta, Ha, He. reflexivity.
Qed.

(** MOD@EXAMPLE.COM is the moderator. *)
Lemma isAllowed_ignores_case_witness :
  isAllowed (Some "mod@example.com") (Some {| email := Some "MOD@EXAMPLE.COM" |})
  = true.
Proof.
  rewrite (isAllowed_ignores_case "mod@example.com" "Mod@Example.com"
             "MOD@EXAMPLE.COM" "mod@example.com"); reflexivity.
Defined.

(** A write that fails while the moderator looks at two rows. *)
Lemma updateStatus_keeps_queue_witness :
  length
    (applications
       (updateStatus_settle REJECTED (Some (Some {| err_message := "" |}))
          (updateStatus_begin AdminScenarios.moderating))) = 2%nat /\
  actionError
    (updateStatus_settle REJECTED (Some (Some {| err_message := "" |}))
       (updateStatus_begin AdminScenarios.moderating)) = Some "UPDATE_FAILED".
Proof.
  destruct (updateStatus_keeps_queue REJECTED (Some (Some {| err_message := "" |}))
              AdminScenarios.moderating)
    as (Ha & _ & _ & _ & _ & Hfail).
  split.
  - rewrite Ha. vm_compute. reflexivity.
  - destruct (Hfail _ eq_refl) as (He & _). rewrite He. reflexivity.
Defined.

(** Application a1 is approved; the store delivers the snapshot again. *)
Lemma decided_application_leaves_queue_witness :
  let a1 := AdminScenarios.application "a1"
              [("twitterName", JString "ape"); ("status", JString "PENDING")] in
  let decided := updateDoc
                   (updateStatus_fields APPROVED "2026-01-01T00:00:00.000Z"
                      (Some AdminScenarios.moderator)) a1 in
  doc_data decided !! "reviewer" = Some (JString "mod@example.com") /\
  ~ In (row_of decided)
       (applications (onSnapshotNext [decided] AdminScenarios.moderating)).
Proof.
  intros a1 decided.
  destruct (decided_application_leaves_queue APPROVED REJECTED
              "2026-01-01T00:00:00.000Z" "2026-01-02T00:00:00.000Z"
              (Some AdminScenarios.moderator) a1 [decided] AdminScenarios.moderating)
    as (_ & Hrev & _ & _ & Hout & _).
  split; [exact Hrev | exact Hout].
Defined.

End AdminMore.
